(** * Replicate MCP server: request contexts, authentication and dispatch

    A shallow embedding of the request-handling core of the Replicate MCP
    server (Node/Hono route [http/routes/mcp.ts], Workers handler
    [adapters/http-workers/mcp.handler.ts], [core/context.ts],
    [http/middlewares/auth.ts], [tools/index.ts] and the two tool handlers),
    together with the properties its specification states about it.

    Conventions.
    - JavaScript numbers that the code uses as integers (request ids,
      millisecond timestamps, HTTP status codes, JSON-RPC error codes) are [Z].
    - Header values and tokens are [string]s of bytes, which is what the Fetch
      API hands to the handlers.
    - A JS [Map] is a [gmap]; a [WeakSet] of transports is a [gset] of
      transport identities.
    - Objects that are shared by reference and mutated in place (cancellation
      tokens) live in an explicit heap inside the [Store]. *)

From Stdlib Require Import ZArith List String Ascii Bool Lia.
From stdpp Require Import base gmap sets list strings pretty.

Local Open Scope string_scope.
Local Open Scope list_scope.
Local Set Warnings "-register-all".

(** ** JSON values *)

Module Json.

(** The result of [JSON.parse].  Numbers are restricted to the integers, which
    is all the handlers inspect (ids).  An object is its list of own
    properties in insertion order, keys pairwise distinct. *)
Inductive json : Type :=
| JNull
| JBool (b : bool)
| JNum (n : Z)
| JStr (s : string)
| JArr (items : list json)
| JObj (fields : list (string * json)).

(** [obj.key] on a plain object: the first (only) property of that name. *)
Fixpoint prop (key : string) (fields : list (string * json)) : option json :=
  match fields with
  | [] => None
  | (k, v) :: rest => if String.eqb k key then Some v else prop key rest
  end.

(** JavaScript truthiness of a parsed JSON value. *)
Definition truthy (v : json) : bool :=
  match v with
  | JNull => false
  | JBool b => b
  | JNum n => negb (n =? 0)%Z
  | JStr s => negb (String.eqb s "")
  | JArr _ => true
  | JObj _ => true
  end.

(** Truthiness of a possibly [undefined] value. *)
Definition truthy_opt (v : option json) : bool :=
  match v with
  | None => false
  | Some v => truthy v
  end.

End Json.

Import Json.

(** Truthiness of [string | undefined]. *)
Definition truthy_str (s : option string) : bool :=
  match s with
  | None => false
  | Some s => negb (String.eqb s "")
  end.

(** ** Request ids *)

(** [string | number], the key type of the context registry. *)
Inductive RequestId : Type :=
| IdNum (n : Z)
| IdStr (s : string).

#[global] Instance RequestId_eq_dec : EqDecision RequestId.
Proof. solve_decision. Defined.

#[global] Instance RequestId_countable : Countable RequestId.
Proof.
  refine (inj_countable'
            (λ r, match r with IdNum n => inl n | IdStr s => inr s end)
            (λ x, match x with inl n => IdNum n | inr s => IdStr s end) _).
  by intros [].
Defined.

(** [if (requestId)]: [0] and the empty string are falsy. *)
Definition truthy_id (r : RequestId) : bool :=
  match r with
  | IdNum n => negb (n =? 0)%Z
  | IdStr s => negb (String.eqb s "")
  end.

(** ** Cancellation tokens *)

Module Cancellation.

(** A listener is a callback; it is identified by a number and its invocation
    is recorded in the store's [notified] log. *)
Abbreviation Listener := nat (only parsing).

(** Modelled from the spec: [utils/cancellation.ts] ([createCancellationToken]
    and the token's methods) is not among the sources.  Section 4.1: a boolean
    flag with a set of listeners, [Active -> Canceled]. *)
Record CancellationToken : Type := mkToken {
  canceled : bool;
  listeners : list Listener;
}.

(** Modelled from the spec: a fresh token is active and has no listener. *)
Definition freshToken : CancellationToken :=
  {| canceled := false; listeners := [] |}.

(** Modelled from the spec: [cancel()] is an idempotent transition to
    Canceled that notifies all listeners, and is free of side effects when the
    token is already canceled.  Returns the token and the listeners invoked. *)
Definition tokenCancel (t : CancellationToken) : CancellationToken * list Listener :=
  if canceled t then (t, [])
  else ({| canceled := true; listeners := listeners t |}, listeners t).

(** Modelled from the spec: [onCancel(listener)] registers a callback invoked
    at cancellation time, or immediately if the token is already canceled. *)
Definition tokenOnCancel (l : Listener) (t : CancellationToken)
  : CancellationToken * list Listener :=
  if canceled t then (t, [l])
  else ({| canceled := false; listeners := listeners t ++ [l] |}, []).

End Cancellation.

Import Cancellation.

(** ** The context registry ([core/context.ts]) *)

(** A reference to a token object on the heap. *)
Abbreviation TokenRef := positive (only parsing).

(** [types/context.ts]. *)
Record RequestContext : Type := mkContext {
  sessionId : option string;
  cancellationToken : TokenRef;
  requestId : option RequestId;
  timestamp : Z;
  replicateToken : option string;
}.

(** The process-wide mutable state the registry code touches. *)
Record Store : Type := mkStore {
  contexts : gmap RequestId RequestContext;  (* ContextRegistry.contexts *)
  tokens : gmap TokenRef CancellationToken;  (* token objects, by reference *)
  notified : list Listener;                  (* listeners invoked so far *)
}.

Definition emptyStore : Store :=
  {| contexts := ∅; tokens := ∅; notified := [] |}.

(** [createCancellationToken()]: allocates a new token object. *)
Definition createCancellationToken (st : Store) : TokenRef * Store :=
  let r := fresh (dom (tokens st)) in
  (r, {| contexts := contexts st;
         tokens := <[r := freshToken]> (tokens st);
         notified := notified st |}).

(** [token.cancel()] through a reference. *)
Definition cancelRef (r : TokenRef) (st : Store) : Store :=
  match tokens st !! r with
  | None => st
  | Some t =>
      let '(t', fired) := tokenCancel t in
      {| contexts := contexts st;
         tokens := <[r := t']> (tokens st);
         notified := notified st ++ fired |}
  end.

(** [token.isCanceled()] through a reference. *)
Definition isCanceledRef (r : TokenRef) (st : Store) : bool :=
  match tokens st !! r with
  | None => false
  | Some t => canceled t
  end.

(** [token.onCancel(listener)] through a reference. *)
Definition onCancelRef (r : TokenRef) (l : Listener) (st : Store) : Store :=
  match tokens st !! r with
  | None => st
  | Some t =>
      let '(t', fired) := tokenOnCancel l t in
      {| contexts := contexts st;
         tokens := <[r := t']> (tokens st);
         notified := notified st ++ fired |}
  end.

Module ContextRegistry.

(** [create(requestId, sessionId?, data?)]; [now] is [Date.now()] and [tok]
    is [data?.replicateToken]. *)
Definition create (rid : RequestId) (sid : option string) (tok : option string)
    (now : Z) (st : Store) : RequestContext * Store :=
  let '(r, st1) := createCancellationToken st in
  let context :=
    {| sessionId := sid;
       cancellationToken := r;
       requestId := Some rid;
       timestamp := now;
       replicateToken := tok |} in
  (context,
   {| contexts := <[rid := context]> (contexts st1);
      tokens := tokens st1;
      notified := notified st1 |}).

Definition get (rid : RequestId) (st : Store) : option RequestContext :=
  contexts st !! rid.

Definition getCancellationToken (rid : RequestId) (st : Store) : option TokenRef :=
  cancellationToken <$> contexts st !! rid.

Definition cancel (rid : RequestId) (st : Store) : bool * Store :=
  match contexts st !! rid with
  | None => (false, st)
  | Some context => (true, cancelRef (cancellationToken context) st)
  end.

Definition delete (rid : RequestId) (st : Store) : Store :=
  {| contexts := base.delete rid (contexts st);
     tokens := tokens st;
     notified := notified st |}.

Definition maxAge : Z := 10 * 60 * 1000.

(** One iteration of the loop in [cleanupExpired]. *)
Definition cleanupStep (now : Z) (acc : gmap RequestId RequestContext)
    (entry : RequestId * RequestContext) : gmap RequestId RequestContext :=
  if decide (now - timestamp entry.2 > maxAge)%Z
  then base.delete entry.1 acc
  else acc.

(** [cleanupExpired()]: walks the entries of the map and deletes, from the
    map itself, each entry that is too old. *)
Definition cleanupExpired (now : Z) (st : Store) : Store :=
  {| contexts := foldl (cleanupStep now) (contexts st) (map_to_list (contexts st));
     tokens := tokens st;
     notified := notified st |}.

End ContextRegistry.

(** Every registered context refers to a token that is on the heap. *)
Definition store_wf (st : Store) : Prop :=
  ∀ rid context, contexts st !! rid = Some context →
    is_Some (tokens st !! cancellationToken context).

(** *** Properties of the registry *)

Section registry_facts.
Implicit Types (st : Store) (rid : RequestId) (r : TokenRef).

Lemma emptyStore_wf : store_wf emptyStore.
Proof. intros rid context H. simpl in H. by rewrite lookup_empty in H. Qed.

Lemma fresh_token_unused st : tokens st !! fresh (dom (tokens st)) = None.
Proof. apply not_elem_of_dom, is_fresh. Qed.

Lemma cancelRef_contexts r st : contexts (cancelRef r st) = contexts st.
Proof.
  unfold cancelRef. destruct (tokens st !! r) as [t|]; [|done].
  by destruct (tokenCancel t).
Qed.

Lemma onCancelRef_contexts r l st : contexts (onCancelRef r l st) = contexts st.
Proof.
  unfold onCancelRef. destruct (tokens st !! r) as [t|]; [|done].
  by destruct (tokenOnCancel l t).
Qed.

Lemma cancelRef_allocated r r' st :
  is_Some (tokens st !! r') → is_Some (tokens (cancelRef r st) !! r').
Proof.
  intros H. unfold cancelRef. destruct (tokens st !! r) as [t|] eqn:E; [|done].
  destruct (tokenCancel t) as [t' fired]; simpl.
  destruct (decide (r = r')) as [->|Hne].
  - rewrite lookup_insert_eq. eauto.
  - by rewrite lookup_insert_ne.
Qed.

Lemma onCancelRef_allocated r r' l st :
  is_Some (tokens st !! r') → is_Some (tokens (onCancelRef r l st) !! r').
Proof.
  intros H. unfold onCancelRef. destruct (tokens st !! r) as [t|] eqn:E; [|done].
  destruct (tokenOnCancel l t) as [t' fired]; simpl.
  destruct (decide (r = r')) as [->|Hne].
  - rewrite lookup_insert_eq. eauto.
  - by rewrite lookup_insert_ne.
Qed.

(** A token that was signalled reports canceled. *)
Lemma cancelRef_isCanceled r st :
  is_Some (tokens st !! r) → isCanceledRef r (cancelRef r st) = true.
Proof.
  intros [t Ht]. unfold isCanceledRef, cancelRef. rewrite Ht.
  unfold tokenCancel. destruct (canceled t) eqn:Ec; simpl.
  - by rewrite lookup_insert_eq.
  - by rewrite lookup_insert_eq.
Qed.

(** Cancellation is monotone: no token operation resets the flag. *)
Lemma cancelRef_monotone r r' st :
  isCanceledRef r' st = true → isCanceledRef r' (cancelRef r st) = true.
Proof.
  unfold isCanceledRef, cancelRef. intros H.
  destruct (tokens st !! r) as [t|] eqn:Ht; [|done].
  unfold tokenCancel. destruct (canceled t) eqn:Ec; simpl.
  - destruct (decide (r = r')) as [->|Hne].
    + by rewrite lookup_insert_eq.
    + by rewrite lookup_insert_ne.
  - destruct (decide (r = r')) as [->|Hne].
    + by rewrite lookup_insert_eq.
    + by rewrite lookup_insert_ne.
Qed.

Lemma onCancelRef_monotone r r' l st :
  isCanceledRef r' st = true → isCanceledRef r' (onCancelRef r l st) = true.
Proof.
  unfold isCanceledRef, onCancelRef. intros H.
  destruct (tokens st !! r) as [t|] eqn:Ht; [|done].
  unfold tokenOnCancel. destruct (canceled t) eqn:Ec; simpl.
  - destruct (decide (r = r')) as [->|Hne].
    + by rewrite lookup_insert_eq.
    + by rewrite lookup_insert_ne.
  - destruct (decide (r = r')) as [->|Hne].
    + rewrite Ht in H. congruence.
    + by rewrite lookup_insert_ne.
Qed.

(** Registering on a canceled token invokes the listener at once. *)
Lemma onCancelRef_after_cancel r l st :
  isCanceledRef r st = true →
  notified (onCancelRef r l st) = notified st ++ [l].
Proof.
  unfold isCanceledRef, onCancelRef. destruct (tokens st !! r) as [t|]; [|done].
  intros Hc. unfold tokenOnCancel. by rewrite Hc.
Qed.

Lemma create_wf rid sid tok now st :
  store_wf st → store_wf (ContextRegistry.create rid sid tok now st).2.
Proof.
  intros Hwf rid' context. unfold ContextRegistry.create; simpl.
  destruct (decide (rid = rid')) as [->|Hne].
  - rewrite lookup_insert_eq. intros [= <-]; simpl.
    rewrite lookup_insert_eq. eauto.
  - rewrite lookup_insert_ne by done. intros H.
    destruct (Hwf _ _ H) as [t Ht].
    destruct (decide (fresh (dom (tokens st)) = cancellationToken context)) as [E|E].
    + rewrite E. rewrite lookup_insert_eq. eauto.
    + rewrite lookup_insert_ne by done. eauto.
Qed.

Lemma delete_wf rid st : store_wf st → store_wf (ContextRegistry.delete rid st).
Proof.
  intros Hwf rid' context; simpl. intros H.
  apply lookup_delete_Some in H as [_ H]. eauto.
Qed.

Lemma cancel_wf rid st : store_wf st → store_wf (ContextRegistry.cancel rid st).2.
Proof.
  intros Hwf. unfold ContextRegistry.cancel.
  destruct (contexts st !! rid) as [c|]; [|done]; simpl.
  intros rid' context. rewrite cancelRef_contexts. intros H.
  apply cancelRef_allocated. eauto.
Qed.

(** After [create(R, ...)], [get(R)] is the new context, whose token is new
    and not canceled; after [delete(R)], [get(R)] is absent. *)
Lemma create_get_delete rid sid tok now st :
  let created := ContextRegistry.create rid sid tok now st in
  ContextRegistry.get rid created.2 = Some created.1
  ∧ tokens st !! cancellationToken created.1 = None
  ∧ isCanceledRef (cancellationToken created.1) created.2 = false
  ∧ ContextRegistry.get rid (ContextRegistry.delete rid created.2) = None.
Proof.
  cbv zeta. unfold ContextRegistry.get, ContextRegistry.create, isCanceledRef. simpl.
  rewrite !lookup_insert_eq, lookup_delete_eq.
  repeat split; try done. apply fresh_token_unused.
Qed.

(** What the loop of [cleanupExpired] leaves in the map, for any list of
    entries it walks. *)
Lemma cleanup_loop_lookup now (l : list (RequestId * RequestContext))
    (acc : gmap RequestId RequestContext) rid :
  foldl (ContextRegistry.cleanupStep now) acc l !! rid =
  if existsb (λ e, bool_decide (e.1 = rid) &&
                   bool_decide (now - timestamp e.2 > ContextRegistry.maxAge)%Z) l
  then None else acc !! rid.
Proof.
  revert acc. induction l as [|[k c] l IH]; intros acc; [done|].
  simpl. rewrite IH. unfold ContextRegistry.cleanupStep; simpl.
  destruct (existsb _ l) eqn:El.
  - by rewrite orb_true_r.
  - rewrite orb_false_r.
    destruct (decide (now - timestamp c > ContextRegistry.maxAge)%Z) as [Hold|Hyoung].
    + rewrite (bool_decide_eq_true_2 _ Hold), andb_true_r.
      destruct (decide (k = rid)) as [->|Hne].
      * rewrite bool_decide_eq_true_2 by done. apply lookup_delete_eq.
      * rewrite bool_decide_eq_false_2 by done. by apply lookup_delete_ne.
    + by rewrite (bool_decide_eq_false_2 _ Hyoung), andb_false_r.
Qed.

Lemma cleanupExpired_lookup now st rid :
  contexts (ContextRegistry.cleanupExpired now st) !! rid =
  match contexts st !! rid with
  | Some context =>
      if decide (now - timestamp context > ContextRegistry.maxAge)%Z
      then None else Some context
  | None => None
  end.
Proof.
  unfold ContextRegistry.cleanupExpired; simpl. rewrite cleanup_loop_lookup.
  destruct (existsb _ _) eqn:Ex.
  - apply existsb_exists in Ex as [[k c] [Hin Hc]]. simpl in Hc.
    apply andb_true_iff in Hc as [Hk Hold].
    apply bool_decide_eq_true in Hk, Hold. subst k.
    apply list_elem_of_In, elem_of_map_to_list in Hin. rewrite Hin.
    by rewrite decide_True.
  - destruct (contexts st !! rid) as [c|] eqn:Hc; [|done].
    destruct (decide _) as [Hold|]; [|done]. exfalso.
    assert (existsb (λ e, bool_decide (e.1 = rid) &&
              bool_decide (now - timestamp e.2 > ContextRegistry.maxAge)%Z)
              (map_to_list (contexts st)) = true) as Ht; [|congruence].
    apply existsb_exists. exists (rid, c). split.
    + by apply list_elem_of_In, elem_of_map_to_list.
    + simpl. by rewrite !bool_decide_eq_true_2.
Qed.

Lemma cleanupExpired_wf now st :
  store_wf st → store_wf (ContextRegistry.cleanupExpired now st).
Proof.
  intros Hwf rid context. rewrite cleanupExpired_lookup.
  destruct (contexts st !! rid) as [c|] eqn:Hc; [|done].
  destruct (decide _); [done|]. intros [= <-]. simpl. eauto.
Qed.

End registry_facts.

(** The loop of [cleanupExpired] computes the filter of the map by age. *)
Lemma cleanupExpired_filter (now : Z) (st : Store) :
  contexts (ContextRegistry.cleanupExpired now st) =
  filter (λ e, ¬ (now - timestamp e.2 > ContextRegistry.maxAge)%Z) (contexts st).
Proof.
  apply map_eq. intros rid. rewrite cleanupExpired_lookup.
  destruct (contexts st !! rid) as [c|] eqn:Hc.
  - destruct (decide _) as [Hold|Hyoung].
    + symmetry. apply map_lookup_filter_None. right. intros c' Hc'. simpl.
      rewrite Hc in Hc'. injection Hc' as <-. tauto.
    + symmetry. apply map_lookup_filter_Some. done.
  - symmetry. apply map_lookup_filter_None. by left.
Qed.

(** C6. For every request id [rid]: when the registry holds no context for
    [rid], [cancel(rid)] returns [false] and leaves the store as it was; when
    it holds one, [cancel(rid)] returns [true] after signalling that context's
    cancellation token: the registry's entries are untouched, the token
    reports canceled from then on, and a listener registered afterwards is
    invoked at registration. *)
Theorem cancel_signals_context_token (st : Store) (rid : RequestId) :
  store_wf st →
  match ContextRegistry.get rid st with
  | None => ContextRegistry.cancel rid st = (false, st)
  | Some context =>
      let r := cancellationToken context in
      let st' := (ContextRegistry.cancel rid st).2 in
      (ContextRegistry.cancel rid st).1 = true ∧
      st' = cancelRef r st ∧
      contexts st' = contexts st ∧
      isCanceledRef r st' = true ∧
      (∀ l : Listener,
          notified (onCancelRef r l st') = notified st' ++ [l] ∧
          isCanceledRef r (onCancelRef r l st') = true)
  end.
Proof.
  intros Hwf. unfold ContextRegistry.get, ContextRegistry.cancel.
  destruct (contexts st !! rid) as [context|] eqn:Hc; [|done].
  simpl. pose proof (Hwf _ _ Hc) as Halloc.
  pose proof (cancelRef_isCanceled _ _ Halloc) as Hcanceled.
  repeat split; auto using cancelRef_contexts.
  - by apply onCancelRef_after_cancel.
  - by apply onCancelRef_monotone.
Qed.

Lemma cancel_signals_context_token_witness :
  let st := (ContextRegistry.create (IdNum 7) None (Some "r8_token") 1000 emptyStore).2 in
  store_wf st ∧
  (ContextRegistry.cancel (IdNum 7) st).1 = true ∧
  isCanceledRef 1%positive (ContextRegistry.cancel (IdNum 7) st).2 = true ∧
  notified (onCancelRef 1%positive 5 (ContextRegistry.cancel (IdNum 7) st).2) = [5].
Proof.
  intros st.
  assert (store_wf st) as Hwf by (apply create_wf, emptyStore_wf).
  split; [exact Hwf|].
  destruct (cancel_signals_context_token st (IdNum 7) Hwf) as (H1 & _ & _ & H4 & H5).
  split; [exact H1|]. split; [exact H4|]. exact (proj1 (H5 5)).
Defined.

(** C7. One run of the sweep removes exactly the contexts whose age at sweep
    time exceeds ten minutes (600000 ms): such a context is gone afterwards,
    and every other context is still registered, unchanged.  Tokens and the
    notification log are not touched. *)
Theorem cleanupExpired_removes_exactly_expired (now : Z) (st : Store) (rid : RequestId) :
  ContextRegistry.get rid (ContextRegistry.cleanupExpired now st) =
    match ContextRegistry.get rid st with
    | Some context =>
        if decide (now - timestamp context > 600000)%Z then None else Some context
    | None => None
    end
  ∧ tokens (ContextRegistry.cleanupExpired now st) = tokens st
  ∧ notified (ContextRegistry.cleanupExpired now st) = notified st.
Proof.
  split; [|done]. unfold ContextRegistry.get. apply cleanupExpired_lookup.
Qed.

(** A context created one second before the sweep survives it; one created
    ten minutes and one millisecond before does not; one aged exactly ten
    minutes survives. *)
Example sweep_one_second_old :
  let st := (ContextRegistry.create (IdNum 1) None None 5000 emptyStore).2 in
  ContextRegistry.get (IdNum 1) (ContextRegistry.cleanupExpired 6000 st)
  = ContextRegistry.get (IdNum 1) st
  ∧ ContextRegistry.get (IdNum 1) (ContextRegistry.cleanupExpired 605001 st) = None
  ∧ ContextRegistry.get (IdNum 1) (ContextRegistry.cleanupExpired 605000 st)
    = ContextRegistry.get (IdNum 1) st.
Proof. vm_compute. done. Qed.

(** ** Authentication ([http/middlewares/auth.ts], [validateApiKey]) *)

Module Auth.

(** [\s] on a byte: TAB, LF, VT, FF, CR, SPACE and NBSP. *)
Definition isSpace (c : ascii) : bool :=
  let n := nat_of_ascii c in
  (Nat.leb 9 n && Nat.leb n 13) || Nat.eqb n 32 || Nat.eqb n 160.

(** A line terminator (LF, CR), which [.] does not match. *)
Definition isLineTerminator (c : ascii) : bool :=
  let n := nat_of_ascii c in
  Nat.eqb n 10 || Nat.eqb n 13.

(** Canonicalisation of the [/i] flag, on the letters of a literal. *)
Definition upper (c : ascii) : ascii :=
  let n := nat_of_ascii c in
  if Nat.leb 97 n && Nat.leb n 122 then ascii_of_nat (n - 32) else c.

Definition eqCharCI (a b : ascii) : bool := Ascii.eqb (upper a) (upper b).

(** [^\s*]: the leading white space. *)
Fixpoint dropSpaces (s : string) : string :=
  match s with
  | String c r => if isSpace c then dropSpaces r else s
  | EmptyString => EmptyString
  end.

(** A literal under [/i]; the result is what follows it. *)
Fixpoint matchLiteralCI (lit s : string) : option string :=
  match lit with
  | EmptyString => Some s
  | String l lit' =>
      match s with
      | String c r => if eqCharCI c l then matchLiteralCI lit' r else None
      | EmptyString => None
      end
  end.

Fixpoint noLineTerminator (s : string) : bool :=
  match s with
  | String c r => negb (isLineTerminator c) && noLineTerminator r
  | EmptyString => true
  end.

(** [(.+)$]: what is left, when it is not empty and has no line terminator. *)
Definition dotPlusToEnd (s : string) : option string :=
  match s with
  | EmptyString => None
  | String _ _ => if noLineTerminator s then Some s else None
  end.

(** The rest of [\s+(.+)$], once one space is consumed: [\s+] is greedy, so
    one more space is tried first, and given back when the rest then fails. *)
Fixpoint moreSpacesThenCapture (s : string) : option string :=
  match s with
  | String c r =>
      if isSpace c then
        match moreSpacesThenCapture r with
        | Some t => Some t
        | None => dotPlusToEnd s
        end
      else dotPlusToEnd s
  | EmptyString => None
  end.

(** [\s+(.+)$]. *)
Definition spacesThenCapture (s : string) : option string :=
  match s with
  | String c r => if isSpace c then moreSpacesThenCapture r else None
  | EmptyString => None
  end.

(** [authHeader.match(/^\s*Bearer\s+(.+)$/i)?.[1]]. *)
Definition bearerMatch (authHeader : string) : option string :=
  match matchLiteralCI "Bearer" (dropSpaces authHeader) with
  | Some rest => spacesThenCapture rest
  | None => None
  end.

(** The two credentials a request can carry. *)
Record AuthHeaders : Type := mkAuthHeaders {
  authorization : option string;  (* header [authorization] *)
  xApiKey : option string;        (* header [x-api-key] *)
}.

(** The part of the configuration the handlers read ([UnifiedConfig]). *)
Record Config : Type := mkConfig {
  API_KEY : option string;
  REPLICATE_API_TOKEN : option string;
  MCP_TITLE : string;
  MCP_VERSION : string;
}.

(** [bearerMatch?.[1] === config.API_KEY]. *)
Definition bearerIs (h : AuthHeaders) (key : option string) : bool :=
  match authorization h with
  | Some authHeader =>
      match bearerMatch authHeader, key with
      | Some t, Some k => String.eqb t k
      | _, _ => false
      end
  | None => false
  end.

(** [apiKeyHeader === config.API_KEY]. *)
Definition apiKeyIs (h : AuthHeaders) (key : option string) : bool :=
  match xApiKey h, key with
  | Some a, Some k => String.eqb a k
  | _, _ => false
  end.

(** [validateApiKey(request, config)] of the Workers handler. *)
Definition validateApiKey (h : AuthHeaders) (config : Config) : bool :=
  if negb (truthy_str (API_KEY config)) then true
  else if bearerIs h (API_KEY config) then true
  else if apiKeyIs h (API_KEY config) then true
  else false.

(** The auth context the Node middleware attaches to the request. *)
Record ReplicateAuthContext : Type := mkAuthContext {
  authenticated : bool;
  authReplicateToken : option string;
}.

(** [replicateAuthMiddleware()]: the context it attaches before [next()]. *)
Definition replicateAuthMiddleware (h : AuthHeaders) (config : Config)
  : ReplicateAuthContext :=
  let authContext :=
    {| authenticated := false; authReplicateToken := REPLICATE_API_TOKEN config |} in
  if negb (truthy_str (API_KEY config)) then
    {| authenticated := true; authReplicateToken := authReplicateToken authContext |}
  else
    let authContext :=
      if bearerIs h (API_KEY config)
      then {| authenticated := true; authReplicateToken := authReplicateToken authContext |}
      else authContext in
    let authContext :=
      if apiKeyIs h (API_KEY config)
      then {| authenticated := true; authReplicateToken := authReplicateToken authContext |}
      else authContext in
    authContext.

End Auth.

Import Auth.

(** *** What the bearer pattern accepts *)

Section bearer_pattern.

Local Arguments dotPlusToEnd : simpl never.

(** The text is white space throughout. *)
Fixpoint allSpaces (s : string) : bool :=
  match s with
  | String c r => isSpace c && allSpaces r
  | EmptyString => true
  end.

(** [kw] is [lit] up to the case of its letters. *)
Fixpoint sameLettersCI (lit kw : string) : bool :=
  match lit, kw with
  | EmptyString, EmptyString => true
  | String l lit', String c kw' => eqCharCI c l && sameLettersCI lit' kw'
  | _, _ => false
  end.

(** The text starts with a character that is not white space. *)
Definition startsWithNonSpace (s : string) : bool :=
  match s with
  | String c _ => negb (isSpace c)
  | EmptyString => false
  end.

Lemma append_cons c (a b : string) : String c a +:+ b = String c (a +:+ b).
Proof. reflexivity. Qed.

Lemma append_nil (b : string) : "" +:+ b = b.
Proof. reflexivity. Qed.

Lemma dropSpaces_split s :
  ∃ pre, s = pre +:+ dropSpaces s ∧ allSpaces pre = true.
Proof.
  induction s as [|c r IH]; simpl.
  - by exists "".
  - destruct (isSpace c) eqn:Hc.
    + destruct IH as (pre & Hr & Hpre). exists (String c pre). simpl.
      rewrite Hc, Hpre, append_cons. split; [by f_equal | done].
    + by exists "".
Qed.

Lemma dropSpaces_app pre s :
  allSpaces pre = true → dropSpaces (pre +:+ s) = dropSpaces s.
Proof.
  induction pre as [|c r IH]; simpl; [done|].
  intros [Hc Hr]%andb_true_iff. rewrite Hc. auto.
Qed.

Lemma dropSpaces_id s : startsWithNonSpace s = true → dropSpaces s = s.
Proof.
  destruct s as [|c r]; simpl; [done|]. intros Hc%negb_true_iff. by rewrite Hc.
Qed.

Lemma matchLiteralCI_split lit s rest :
  matchLiteralCI lit s = Some rest →
  ∃ kw, s = kw +:+ rest ∧ sameLettersCI lit kw = true.
Proof.
  revert s. induction lit as [|l lit' IH]; intros s; simpl.
  - intros [= ->]. by exists "".
  - destruct s as [|c r]; [done|]. destruct (eqCharCI c l) eqn:Hc; [|done].
    intros (kw & -> & Hkw)%IH. exists (String c kw). simpl. by rewrite Hc, Hkw.
Qed.

Lemma matchLiteralCI_app lit kw rest :
  sameLettersCI lit kw = true → matchLiteralCI lit (kw +:+ rest) = Some rest.
Proof.
  revert kw. induction lit as [|l lit' IH]; intros [|c kw]; simpl; try done.
  intros [Hc Hkw]%andb_true_iff. rewrite Hc. auto.
Qed.

Lemma dotPlusToEnd_Some s t :
  dotPlusToEnd s = Some t → t = s ∧ s ≠ "" ∧ noLineTerminator s = true.
Proof.
  destruct s as [|c r]; [done|]. unfold dotPlusToEnd.
  destruct (noLineTerminator (String c r)) eqn:Hn; [|done].
  by intros [= <-].
Qed.

Lemma moreSpacesThenCapture_split s t :
  moreSpacesThenCapture s = Some t →
  ∃ sp, s = sp +:+ t ∧ allSpaces sp = true ∧ t ≠ "" ∧ noLineTerminator t = true.
Proof.
  induction s as [|c r IH]; simpl; [done|].
  destruct (isSpace c) eqn:Hc.
  - destruct (moreSpacesThenCapture r) as [t'|] eqn:Hr.
    + intros [= ->]. destruct (IH eq_refl) as (sp & -> & Hsp & Ht).
      exists (String c sp). simpl. by rewrite Hc, Hsp.
    + intros (-> & Hne & Hn)%dotPlusToEnd_Some. by exists "".
  - intros (-> & Hne & Hn)%dotPlusToEnd_Some. by exists "".
Qed.

Lemma moreSpacesThenCapture_app sp t :
  allSpaces sp = true → startsWithNonSpace t = true → noLineTerminator t = true →
  moreSpacesThenCapture (sp +:+ t) = Some t.
Proof.
  intros Hsp Ht Hn. induction sp as [|c r IH]; simpl.
  - destruct t as [|c r]; [done|]. simpl in Ht. apply negb_true_iff in Ht.
    simpl. rewrite Ht. unfold dotPlusToEnd. by rewrite Hn.
  - simpl in Hsp. apply andb_true_iff in Hsp as [Hc Hr]. rewrite Hc.
    by rewrite (IH Hr).
Qed.

(** The first letter of the keyword is no white space. *)
Lemma keyword_starts_with_letter kw :
  sameLettersCI "Bearer" kw = true → startsWithNonSpace kw = true.
Proof.
  destruct kw as [|c r]; [done|]. simpl.
  intros [Hc _]%andb_true_iff. revert Hc.
  destruct c as [[] [] [] [] [] [] [] []]; vm_compute; congruence.
Qed.

(** Whatever the pattern captures stands in the header after optional white
    space, the word [Bearer] in any case, and at least one space; it is not
    empty and holds no line terminator. *)
Lemma bearerMatch_sound authHeader t :
  bearerMatch authHeader = Some t →
  ∃ pre kw sp,
    authHeader = pre +:+ kw +:+ sp +:+ t
    ∧ allSpaces pre = true ∧ sameLettersCI "Bearer" kw = true
    ∧ sp ≠ "" ∧ allSpaces sp = true
    ∧ t ≠ "" ∧ noLineTerminator t = true.
Proof.
  unfold bearerMatch. intros H.
  destruct (dropSpaces_split authHeader) as (pre & Hh & Hpre).
  destruct (matchLiteralCI "Bearer" (dropSpaces authHeader)) as [rest|] eqn:Hm; [|done].
  apply matchLiteralCI_split in Hm as (kw & Hd & Hkw).
  unfold spacesThenCapture in H. destruct rest as [|c r]; [done|].
  destruct (isSpace c) eqn:Hc; [|done].
  apply moreSpacesThenCapture_split in H as (sp & -> & Hsp & Hne & Hn).
  exists pre, kw, (String c sp). repeat split; try done.
  - rewrite Hh at 1. by rewrite Hd.
  - simpl. by rewrite Hc, Hsp.
Qed.

(** A token that starts with a character other than white space, and holds no
    line terminator, is captured as it stands. *)
Lemma bearerMatch_complete pre kw sp t :
  allSpaces pre = true → sameLettersCI "Bearer" kw = true →
  sp ≠ "" → allSpaces sp = true →
  startsWithNonSpace t = true → noLineTerminator t = true →
  bearerMatch (pre +:+ kw +:+ sp +:+ t) = Some t.
Proof.
  intros Hpre Hkw Hne Hsp Ht Hn. unfold bearerMatch.
  rewrite dropSpaces_app by done.
  rewrite dropSpaces_id.
  - rewrite matchLiteralCI_app by done.
    destruct sp as [|c r]; [done|]. simpl in *.
    apply andb_true_iff in Hsp as [Hc Hr]. rewrite Hc.
    by apply moreSpacesThenCapture_app.
  - apply keyword_starts_with_letter in Hkw.
    destruct kw as [|c r]; [done|]. done.
Qed.

(** *** The bearer format, stated apart from the matcher *)

(** [authHeader] is an [Authorization: Bearer <token>] header with the given
    token: optional white space, the word [Bearer] in any case of its letters,
    at least one white-space character, then the token, which runs to the end
    of the header, is not empty and holds no line terminator.  The white space
    before the token is all there is, so the token starts with another
    character -- unless the header ends in white space, whose last character
    then is the token. *)
Definition carriesBearer (authHeader token : string) : Prop :=
  ∃ pre kw sp,
    authHeader = pre +:+ kw +:+ sp +:+ token
    ∧ allSpaces pre = true
    ∧ sameLettersCI "Bearer" kw = true
    ∧ sp ≠ "" ∧ allSpaces sp = true
    ∧ token ≠ "" ∧ noLineTerminator token = true
    ∧ (startsWithNonSpace token = true ∨ String.length token = 1).

Lemma moreSpacesThenCapture_some (s : string) :
  s ≠ "" → noLineTerminator s = true → is_Some (moreSpacesThenCapture s).
Proof.
  destruct s as [|c r]; [done|]. intros _ Hn. simpl.
  assert (dotPlusToEnd (String c r) = Some (String c r)) as Hd.
  { unfold dotPlusToEnd. by rewrite Hn. }
  destruct (isSpace c); [|rewrite Hd; eauto].
  destruct (moreSpacesThenCapture r); [eauto|]. rewrite Hd. eauto.
Qed.

Lemma moreSpacesThenCapture_start (s t : string) :
  moreSpacesThenCapture s = Some t →
  startsWithNonSpace t = true ∨ String.length t = 1.
Proof.
  induction s as [|c r IH]; simpl; [done|].
  destruct (isSpace c) eqn:Hc.
  - destruct (moreSpacesThenCapture r) as [t'|] eqn:Hr.
    + intros [= ->]. by apply IH.
    + unfold dotPlusToEnd.
      destruct (noLineTerminator (String c r)) eqn:Hn; [|done].
      intros [= <-]. right. destruct r as [|c' r']; [done|].
      simpl in Hn. apply andb_true_iff in Hn as [_ Hn].
      destruct (moreSpacesThenCapture_some (String c' r')) as [x Hx]; [done|done|].
      congruence.
  - unfold dotPlusToEnd.
    destruct (noLineTerminator (String c r)) eqn:Hn; [|done].
    intros [= <-]. left. simpl. by rewrite Hc.
Qed.

Lemma moreSpacesThenCapture_last (sp : string) (c : ascii) :
  allSpaces sp = true → isSpace c = true → isLineTerminator c = false →
  moreSpacesThenCapture (sp +:+ String c "") = Some (String c "").
Proof.
  intros Hsp Hc Hl. induction sp as [|c0 sp IH].
  - rewrite append_nil. simpl. rewrite Hc. unfold dotPlusToEnd. simpl.
    by rewrite Hl.
  - rewrite append_cons. simpl in *. apply andb_true_iff in Hsp as [Hc0 Hsp].
    by rewrite Hc0, (IH Hsp).
Qed.

(** The matcher captures exactly the token of a header in the bearer format. *)
Lemma bearerMatch_carriesBearer (authHeader token : string) :
  bearerMatch authHeader = Some token ↔ carriesBearer authHeader token.
Proof.
  split.
  - unfold bearerMatch. intros H.
    destruct (dropSpaces_split authHeader) as (pre & Hh & Hpre).
    destruct (matchLiteralCI "Bearer" (dropSpaces authHeader)) as [rest|] eqn:Hm;
      [|done].
    apply matchLiteralCI_split in Hm as (kw & Hd & Hkw).
    unfold spacesThenCapture in H. destruct rest as [|c r]; [done|].
    destruct (isSpace c) eqn:Hc; [|done].
    pose proof (moreSpacesThenCapture_start _ _ H) as Hstart.
    apply moreSpacesThenCapture_split in H as (sp & -> & Hsp & Hne & Hn).
    exists pre, kw, (String c sp). repeat split; try done.
    + rewrite Hh at 1. by rewrite Hd.
    + simpl. by rewrite Hc, Hsp.
  - intros (pre & kw & sp & -> & Hpre & Hkw & Hne & Hsp & Ht & Hn & Hstart).
    unfold bearerMatch. rewrite dropSpaces_app by done.
    rewrite dropSpaces_id
      by (apply keyword_starts_with_letter in Hkw; by destruct kw).
    rewrite matchLiteralCI_app by done.
    destruct sp as [|c r]; [done|]. rewrite append_cons. simpl in *.
    apply andb_true_iff in Hsp as [Hc Hr]. rewrite Hc.
    destruct Hstart as [Hstart|Hone].
    + by apply moreSpacesThenCapture_app.
    + destruct token as [|c1 [|c2 t]]; try done.
      destruct (isSpace c1) eqn:Hc1.
      * apply moreSpacesThenCapture_last; [done|done|].
        simpl in Hn. by destruct (isLineTerminator c1).
      * apply moreSpacesThenCapture_app; [done| |done]. simpl. by rewrite Hc1.
Qed.

End bearer_pattern.

(** ** HTTP responses and JSON-RPC payloads *)

(** A call either returns or throws (for an async function: its promise is
    fulfilled or rejected). *)
Inductive Outcome (A : Type) : Type :=
| Returned (a : A)
| Threw (error : string).
Arguments Returned {A} a.
Arguments Threw {A} error.

Record JsonRpcError : Type := mkRpcError {
  code : Z;
  message : string;
}.

(** The payload after [jsonrpc: '2.0']: an [error] member or a [result]
    member (an [undefined] result is [None]), and the [id]. *)
Inductive JsonRpcPayload : Type :=
| RpcError (error : JsonRpcError) (id : json)
| RpcResult (result : option json) (id : json).

Definition payloadId (p : JsonRpcPayload) : json :=
  match p with
  | RpcError _ id => id
  | RpcResult _ id => id
  end.

Inductive HttpBody : Type :=
| EmptyBody
| JsonRpcBody (payload : JsonRpcPayload)
| TextBody (text : string).

Record HttpResponse : Type := mkResponse {
  status : Z;
  body : HttpBody;
  mcpSessionIdHeader : option string;  (* response header [Mcp-Session-Id] *)
}.

(** Modelled from the spec: [shared/http/response.ts] is not among the
    sources.  [jsonResponse(body, init)] answers with the JSON body and the
    status of [init], HTTP 200 when none is given (sections 6 and 8).  Hono's
    [c.json(body, status)] does the same on the Node side. *)
Definition jsonResponse (payload : JsonRpcPayload) (init : option Z) : HttpResponse :=
  {| status := default 200%Z init;
     body := JsonRpcBody payload;
     mcpSessionIdHeader := None |}.

(** [response.headers.set('Mcp-Session-Id', sessionId)]. *)
Definition setSessionHeader (sessionId : string) (response : HttpResponse)
  : HttpResponse :=
  {| status := status response;
     body := body response;
     mcpSessionIdHeader := Some sessionId |}.

(** The 401 answer, worded alike in [requireAuth] and in [handleMcpRequest]. *)
Definition unauthorizedResponse : HttpResponse :=
  jsonResponse
    (RpcError {| code := -32001;
                 message := "Unauthorized: Invalid or missing API key" |} JNull)
    (Some 401%Z).

(** [requireAuth()]: [Some] response when the request is turned away, [None]
    when [next()] runs. *)
Definition requireAuth (auth : option ReplicateAuthContext) : option HttpResponse :=
  match auth with
  | Some a => if authenticated a then None else Some unauthorizedResponse
  | None => Some unauthorizedResponse
  end.

(** The middleware chain in front of [/mcp] in [buildHttpApp]:
    [replicateAuthMiddleware] on every path, then [requireAuth]. *)
Definition mcpAuthChain (h : AuthHeaders) (config : Config)
  : HttpResponse + ReplicateAuthContext :=
  let auth := replicateAuthMiddleware h config in
  match requireAuth (Some auth) with
  | Some response => inl response
  | None => inr auth
  end.

(** ** The Workers handler ([adapters/http-workers/mcp.handler.ts]) *)

(** [String.prototype.trim] on a byte string. *)
Fixpoint trimEnd (s : string) : string :=
  match s with
  | EmptyString => EmptyString
  | String c r =>
      match trimEnd r with
      | EmptyString => if isSpace c then EmptyString else String c EmptyString
      | r' => String c r'
      end
  end.

Definition trim (s : string) : string := trimEnd (dropSpaces s).

(** What the handler reads of the [Request]. *)
Record WorkerRequest : Type := mkWorkerRequest {
  authHeaders : AuthHeaders;
  sessionIdHeader : option string;  (* header [Mcp-Session-Id] *)
  parsedBody : option json;         (* [request.json()]; [None] when it rejects *)
}.

(** [McpDispatchContext] without its closures, which all reach the session
    maps under the context's [sessionId]. *)
Record McpDispatchContext : Type := mkDispatchContext {
  dcSessionId : string;
  dcReplicateToken : option string;
  dcTitle : string;
  dcVersion : string;
}.

(** [{ result?, error? }], as [dispatchMcpMethod] resolves. *)
Record McpDispatchResult : Type := mkDispatchResult {
  drResult : option json;
  drError : option JsonRpcError;
}.

Section Workers.

(** [shared/mcp/dispatcher.ts] is not among the sources; its types and its
    two entry points are parameters of the handler. *)
Context {McpSessionState CancellationRegistry : Type}.

(** [sessionStateMap] and [cancellationRegistryMap]. *)
Record WorkerState : Type := mkWorkerState {
  sessionStateMap : gmap string McpSessionState;
  cancellationRegistryMap : gmap string CancellationRegistry;
}.

(** [new Map()] *)
Variable emptyRegistry : CancellationRegistry.

(** [dispatchMcpMethod(method, params, context, id)]: resolves to a success
    payload or an error payload; it may read and write the session maps. *)
Variable dispatchMcpMethod :
  option json → option json → McpDispatchContext → json → WorkerState →
  McpDispatchResult * WorkerState.

(** [handleMcpNotification(method, params, context)]: side effects only. *)
Variable handleMcpNotification :
  json → option json → McpDispatchContext → WorkerState → WorkerState.

Definition getCancellationRegistry (sessionId : string) (ws : WorkerState)
  : WorkerState :=
  match cancellationRegistryMap ws !! sessionId with
  | Some _ => ws
  | None =>
      {| sessionStateMap := sessionStateMap ws;
         cancellationRegistryMap :=
           <[sessionId := emptyRegistry]> (cancellationRegistryMap ws) |}
  end.

(** [body.key] for a value that is not [null]: own properties of an object;
    nothing the handler asks for on an array or a primitive. *)
Definition member (key : string) (v : json) : option json :=
  match v with
  | JObj fields => prop key fields
  | _ => None
  end.

(** ['id' in body]: a [TypeError] on a primitive. *)
Definition hasId (v : json) : Outcome bool :=
  match v with
  | JObj fields => Returned (bool_decide (is_Some (prop "id" fields)))
  | JArr _ => Returned false
  | _ => Threw "TypeError: Cannot use 'in' operator"
  end.

(** [id === null || id === undefined]. *)
Definition nullish (v : option json) : bool :=
  match v with
  | None => true
  | Some JNull => true
  | Some _ => false
  end.

(** [handleMcpRequest(request, deps)]; [uuid] is what [crypto.randomUUID()]
    would return. *)
Definition handleMcpRequest (request : WorkerRequest) (config : Config)
    (uuid : string) (ws : WorkerState) : Outcome HttpResponse * WorkerState :=
  if negb (validateApiKey (authHeaders request) config) then
    (Returned unauthorizedResponse, ws)
  else
    let sessionId :=
      match sessionIdHeader request with
      | Some incoming => if String.eqb (trim incoming) "" then uuid else trim incoming
      | None => uuid
      end in
    (* request.json().catch(() => ({})) *)
    let body := default (JObj []) (parsedBody request) in
    (* const { method, params, id } = body *)
    match body with
    | JNull => (Threw "TypeError: Cannot destructure property of null", ws)
    | _ =>
        let method := member "method" body in
        let params := member "params" body in
        let id := member "id" body in
        let dispatchContext :=
          {| dcSessionId := sessionId;
             dcReplicateToken := REPLICATE_API_TOKEN config;
             dcTitle := MCP_TITLE config;
             dcVersion := MCP_VERSION config |} in
        let ws := getCancellationRegistry sessionId ws in
        match hasId body with
        | Threw e => (Threw e, ws)
        | Returned present =>
            if negb present || nullish id then
              let ws :=
                match method with
                | Some m => if truthy m
                            then handleMcpNotification m params dispatchContext ws
                            else ws
                | None => ws
                end in
              (Returned {| status := 202; body := EmptyBody;
                           mcpSessionIdHeader := None |}, ws)
            else
              let '(result, ws) :=
                dispatchMcpMethod method params dispatchContext
                                  (default JNull id) ws in
              let payload :=
                match drError result with
                | Some e => RpcError e (default JNull id)
                | None => RpcResult (drResult result) (default JNull id)
                end in
              (Returned (setSessionHeader sessionId (jsonResponse payload None)), ws)
        end
    end.

(** *** Properties of the API-key check and of the handler *)

(** The request carries [key] as a bearer token or as [X-Api-Key]. *)
Definition presentsKey (h : AuthHeaders) (key : string) : Prop :=
  (∃ authHeader, authorization h = Some authHeader ∧ bearerMatch authHeader = Some key)
  ∨ xApiKey h = Some key.

(** The JSON-RPC id a body carries: the [id] member of an object, unless it
    is [null]. *)
Definition carriedId (parsed : option json) : option json :=
  match parsed with
  | Some (JObj fields) =>
      match prop "id" fields with
      | Some JNull => None
      | other => other
      end
  | _ => None
  end.

(** The body is an object or an array, or could not be parsed. *)
Definition objectOrUnparsed (parsed : option json) : bool :=
  match parsed with
  | None | Some (JObj _) | Some (JArr _) => true
  | Some _ => false
  end.

(** The empty 202 acknowledgement. *)
Definition accepted202 (r : Outcome HttpResponse) : Prop :=
  r = Returned {| status := 202; body := EmptyBody; mcpSessionIdHeader := None |}.

(** One JSON-RPC response, result or error, with the given id. *)
Definition respondedWithId (id : json) (r : Outcome HttpResponse) : Prop :=
  ∃ payload sid,
    r = Returned {| status := 200; body := JsonRpcBody payload;
                    mcpSessionIdHeader := Some sid |}
    ∧ payloadId payload = id.

Lemma bearerIs_true h key :
  bearerIs h (Some key) = true ↔
  ∃ authHeader, authorization h = Some authHeader ∧ bearerMatch authHeader = Some key.
Proof.
  unfold bearerIs. destruct (authorization h) as [a|].
  - destruct (bearerMatch a) as [t|] eqn:Hm.
    + rewrite String.eqb_eq. split.
      * intros ->. eauto.
      * intros (a' & [= <-] & Hm'). congruence.
    + split; [done|]. intros (a' & [= <-] & Hm'). congruence.
  - split; [done|]. by intros (a' & Ha & _).
Qed.

Lemma apiKeyIs_true h key : apiKeyIs h (Some key) = true ↔ xApiKey h = Some key.
Proof.
  unfold apiKeyIs. destruct (xApiKey h) as [a|].
  - rewrite String.eqb_eq. split; [by intros -> | by intros [= ->]].
  - done.
Qed.

Lemma validateApiKey_configured h config key :
  API_KEY config = Some key → key ≠ "" →
  validateApiKey h config = true ↔ presentsKey h key.
Proof.
  intros Hk Hne. unfold validateApiKey, presentsKey. rewrite Hk. simpl.
  apply String.eqb_neq in Hne. rewrite Hne. simpl.
  rewrite <- bearerIs_true, <- apiKeyIs_true.
  destruct (bearerIs h (Some key)), (apiKeyIs h (Some key)); intuition congruence.
Qed.

Lemma replicateAuthMiddleware_authenticated h config :
  authenticated (replicateAuthMiddleware h config) = validateApiKey h config
  ∧ authReplicateToken (replicateAuthMiddleware h config) = REPLICATE_API_TOKEN config.
Proof.
  unfold replicateAuthMiddleware, validateApiKey.
  destruct (truthy_str (API_KEY config)); simpl; [|done].
  by destruct (bearerIs h (API_KEY config)), (apiKeyIs h (API_KEY config)).
Qed.

Lemma mcpAuthChain_cases h config :
  mcpAuthChain h config =
  if validateApiKey h config
  then inr {| authenticated := true;
              authReplicateToken := REPLICATE_API_TOKEN config |}
  else inl unauthorizedResponse.
Proof.
  unfold mcpAuthChain, requireAuth.
  destruct (replicateAuthMiddleware_authenticated h config) as [Ha Ht].
  destruct (replicateAuthMiddleware h config) as [a t]; simpl in *. subst.
  by destruct (validateApiKey h config).
Qed.

(** The request carries [key] in one of the two headers the check reads: as
    the token of an [Authorization] header in the bearer format, or as the
    value of [X-Api-Key]. *)
Definition carriesKey (h : AuthHeaders) (key : string) : Prop :=
  (∃ authHeader, authorization h = Some authHeader ∧ carriesBearer authHeader key)
  ∨ xApiKey h = Some key.

(** The handler went on to the request.  On a body that is an object or an
    array, or could not be parsed, it answered with one JSON-RPC payload under
    HTTP 200 and a session header, or acknowledged with the empty 202; on a
    body that is [null] or a primitive it threw. *)
Definition servedBy (parsed : option json) (r : Outcome HttpResponse) : Prop :=
  if objectOrUnparsed parsed then
    ∃ response,
      r = Returned response ∧
      ((∃ payload sid,
           response = {| status := 200; body := JsonRpcBody payload;
                         mcpSessionIdHeader := Some sid |})
       ∨ response = {| status := 202; body := EmptyBody; mcpSessionIdHeader := None |})
  else ∃ e, r = Threw e.

Lemma presentsKey_carriesKey h key : presentsKey h key ↔ carriesKey h key.
Proof.
  unfold presentsKey, carriesKey. split.
  - intros [(a & Ha & Hm)|Hx]; [left|by right].
    exists a. split; [done|]. by apply bearerMatch_carriesBearer.
  - intros [(a & Ha & Hm)|Hx]; [left|by right].
    exists a. split; [done|]. by apply bearerMatch_carriesBearer.
Qed.

Lemma handleMcpRequest_served request config uuid ws :
  validateApiKey (authHeaders request) config = true →
  servedBy (parsedBody request) (handleMcpRequest request config uuid ws).1.
Proof.
  intros Hauth. unfold handleMcpRequest, servedBy. rewrite Hauth. simpl.
  destruct (parsedBody request) as [[| | | |items|fields]|]; simpl; eauto.
  destruct (prop "id" fields) as [id|] eqn:Hid; simpl; [|by eauto].
  destruct id; simpl; eauto;
    (destruct (dispatchMcpMethod _ _ _ _ _) as [result ws'];
     destruct (drError result); simpl;
     refine (ex_intro _ _ (conj eq_refl _)); left; eexists _, _; reflexivity).
Qed.

(** C4. With an API-key secret configured, a request is accepted exactly when
    it carries the secret as the token of an [Authorization: Bearer <token>]
    header -- optional white space, [Bearer] in any case of its letters, white
    space, then the token up to the end of the header -- or as the value of
    [X-Api-Key].  Accepted means: the Workers check [validateApiKey] holds and
    [handleMcpRequest] goes on to serve the request (HTTP 200 with a JSON-RPC
    payload, or the empty 202; a body that is [null] or a primitive makes it
    throw instead), and the Node chain [replicateAuthMiddleware] then
    [requireAuth] hands the request on, marked authenticated.  A request
    that does not carry the secret is answered, by the Workers handler and by
    the Node chain alike, with HTTP 401 and JSON-RPC error -32001, and the
    Workers session maps are left as they were.  With no secret configured
    every request is accepted. *)
Theorem api_key_check (request : WorkerRequest) (config : Config) (uuid : string)
    (ws : WorkerState) :
  let h := authHeaders request in
  let passes :=
    validateApiKey h config = true ∧
    servedBy (parsedBody request) (handleMcpRequest request config uuid ws).1 ∧
    mcpAuthChain h config = inr {| authenticated := true;
                              authReplicateToken := REPLICATE_API_TOKEN config |} in
  let refused :=
    validateApiKey h config = false ∧
    handleMcpRequest request config uuid ws = (Returned unauthorizedResponse, ws) ∧
    mcpAuthChain h config = inl unauthorizedResponse ∧
    status unauthorizedResponse = 401%Z ∧
    (∃ msg, body unauthorizedResponse =
            JsonRpcBody (RpcError {| code := -32001; message := msg |} JNull)) in
  match API_KEY config with
  | Some key =>
      if String.eqb key "" then passes
      else (carriesKey h key ∧ passes) ∨ (¬ carriesKey h key ∧ refused)
  | None => passes
  end.
Proof.
  intros h. cbv zeta. rewrite mcpAuthChain_cases.
  pose proof (handleMcpRequest_served request config uuid ws) as Hserved.
  fold h in Hserved.
  destruct (API_KEY config) as [key|] eqn:Hk.
  - destruct (String.eqb key "") eqn:He.
    + assert (validateApiKey h config = true) as Hv
        by (unfold validateApiKey; rewrite Hk; simpl; by rewrite He).
      rewrite Hv. auto.
    + apply String.eqb_neq in He.
      pose proof (validateApiKey_configured h config key Hk He) as Hiff.
      rewrite presentsKey_carriesKey in Hiff.
      destruct (validateApiKey h config) eqn:Hv.
      * left. split; [by apply Hiff | auto].
      * right. split.
        -- intros Hp. apply Hiff in Hp. congruence.
        -- unfold handleMcpRequest. fold h. rewrite Hv. simpl.
           repeat split; eauto.
  - assert (validateApiKey h config = true) as Hv
      by (unfold validateApiKey; by rewrite Hk).
    rewrite Hv. auto.
Qed.

(** C2, as amended. For every POST that passes the API-key check and whose
    body is a JSON object or array, or cannot be parsed: when the body carries
    an [id] member other than [null] (the number 0 included) the caller gets
    one JSON-RPC response, result or error, with that id; when the body has no
    [id] member, or a [null] one, the call is a notification and the answer is
    HTTP 202 with an empty body. *)
Theorem authenticated_post_answers_by_id (request : WorkerRequest) (config : Config)
    (uuid : string) (ws : WorkerState) :
  validateApiKey (authHeaders request) config = true →
  objectOrUnparsed (parsedBody request) = true →
  match carriedId (parsedBody request) with
  | Some id => respondedWithId id (handleMcpRequest request config uuid ws).1
  | None => accepted202 (handleMcpRequest request config uuid ws).1
  end.
Proof.
  intros Hauth Hshape. unfold handleMcpRequest. rewrite Hauth. simpl.
  destruct (parsedBody request) as [[| | | |items|fields]|];
    try discriminate Hshape; simpl.
  - (* an array *) done.
  - (* an object *)
    destruct (prop "id" fields) as [id|] eqn:Hid; simpl; [|done].
    destruct id; simpl; try done;
      (destruct (dispatchMcpMethod _ _ _ _ _) as [result ws'];
       destruct (drError result); simpl; eexists _, _; split; reflexivity).
  - (* not parsed: the empty object *)
    done.
Qed.

(** C9. An authenticated POST whose body is not valid JSON is handled as the
    same request with the body [{}]: it is answered with HTTP 202 and an empty
    body, and neither the dispatcher nor the notification handler runs (the
    session maps only gain the session's cancellation registry). *)
Theorem malformed_body_is_acknowledged (request : WorkerRequest) (config : Config)
    (uuid : string) (ws : WorkerState) :
  validateApiKey (authHeaders request) config = true →
  parsedBody request = None →
  handleMcpRequest request config uuid ws
  = handleMcpRequest {| authHeaders := authHeaders request;
                        sessionIdHeader := sessionIdHeader request;
                        parsedBody := Some (JObj []) |} config uuid ws
  ∧ accepted202 (handleMcpRequest request config uuid ws).1
  ∧ ∃ sid, (handleMcpRequest request config uuid ws).2 = getCancellationRegistry sid ws.
Proof.
  intros Hauth Hbody. unfold handleMcpRequest, accepted202. simpl.
  rewrite Hauth, Hbody. simpl. eauto.
Qed.

End Workers.

Arguments WorkerState : clear implicits.

(** *** The handler on concrete requests *)

Module WorkersExamples.

(** A dispatcher that answers every method with an empty result, and a
    notification handler without effect. *)
Definition okDispatcher (method params : option json) (context : McpDispatchContext)
    (id : json) (ws : WorkerState unit unit) : McpDispatchResult * WorkerState unit unit :=
  ({| drResult := Some (JObj []); drError := None |}, ws).

Definition quietNotifications (method : json) (params : option json)
    (context : McpDispatchContext) (ws : WorkerState unit unit) : WorkerState unit unit :=
  ws.

Definition run : WorkerRequest → Config → string → WorkerState unit unit →
                 Outcome HttpResponse * WorkerState unit unit :=
  handleMcpRequest tt okDispatcher quietNotifications.

Definition secured : Config :=
  {| API_KEY := Some "secret";
     REPLICATE_API_TOKEN := Some "r8_token";
     MCP_TITLE := "Replicate MCP Server";
     MCP_VERSION := "1.0.0" |}.

Definition idle : WorkerState unit unit :=
  {| sessionStateMap := ∅; cancellationRegistryMap := ∅ |}.

Definition noCredentials : AuthHeaders :=
  {| authorization := None; xApiKey := None |}.

Definition withApiKey : AuthHeaders :=
  {| authorization := None; xApiKey := Some "secret" |}.

Definition withBearer : AuthHeaders :=
  {| authorization := Some "Bearer secret"; xApiKey := None |}.

(** [{"jsonrpc":"2.0","id":<id>,"method":"tools/list"}] *)
Definition listTools (id : json) : json :=
  JObj [("jsonrpc", JStr "2.0"); ("id", id); ("method", JStr "tools/list")].

(** [{"jsonrpc":"2.0","method":"notifications/initialized"}] *)
Definition initialized : json :=
  JObj [("jsonrpc", JStr "2.0"); ("method", JStr "notifications/initialized")].

End WorkersExamples.

Import WorkersExamples.

Example bearer_forms :
  bearerMatch "Bearer secret" = Some "secret"
  ∧ bearerMatch "  bEARER   secret" = Some "secret"
  ∧ bearerMatch "Bearer a b" = Some "a b"
  ∧ bearerMatch "Bearer secret " = Some "secret "
  ∧ bearerMatch "Bearer  " = Some " "
  ∧ bearerMatch "Bearer " = None
  ∧ bearerMatch "Bearer" = None
  ∧ bearerMatch "Bearersecret" = None
  ∧ bearerMatch "Basic secret" = None.
Proof. vm_compute. done. Qed.

Lemma authenticated_post_answers_by_id_witness :
  let request := {| authHeaders := withApiKey; sessionIdHeader := None;
                    parsedBody := Some (listTools (JNum 0)) |} in
  validateApiKey (authHeaders request) secured = true
  ∧ objectOrUnparsed (parsedBody request) = true
  ∧ respondedWithId (JNum 0) (run request secured "uuid-1" idle).1.
Proof.
  intros request. split; [reflexivity|]. split; [reflexivity|].
  exact (authenticated_post_answers_by_id tt okDispatcher quietNotifications
           request secured "uuid-1" idle eq_refl eq_refl).
Defined.

(** C2 as first stated ranges over every POST.  A POST without the
    configured key is refused before its body is read: a request with id 1
    gets a payload whose id is [null], with HTTP 401, and a notification gets
    that same payload instead of the 202 acknowledgement.  And a body that is
    the JSON value [null] carries no [id], yet the handler throws on it. *)
Lemma post_without_key_is_not_answered_by_id :
  let request := {| authHeaders := noCredentials; sessionIdHeader := None;
                    parsedBody := Some (listTools (JNum 1)) |} in
  let notification := {| authHeaders := noCredentials; sessionIdHeader := None;
                         parsedBody := Some initialized |} in
  let null := {| authHeaders := withApiKey; sessionIdHeader := None;
                 parsedBody := Some JNull |} in
  (carriedId (parsedBody request) = Some (JNum 1)
   ∧ (run request secured "uuid-1" idle).1 = Returned unauthorizedResponse
   ∧ ¬ respondedWithId (JNum 1) (run request secured "uuid-1" idle).1)
  ∧ (carriedId (parsedBody notification) = None
     ∧ (run notification secured "uuid-1" idle).1 = Returned unauthorizedResponse
     ∧ ¬ accepted202 (run notification secured "uuid-1" idle).1)
  ∧ (carriedId (parsedBody null) = None
     ∧ ¬ accepted202 (run null secured "uuid-1" idle).1).
Proof.
  cbv zeta. repeat split.
  - intros (payload & sid & H & _). vm_compute in H. discriminate H.
  - intros H. vm_compute in H. discriminate H.
  - intros H. vm_compute in H. discriminate H.
Qed.

Lemma malformed_body_is_acknowledged_witness :
  let request := {| authHeaders := withBearer; sessionIdHeader := Some "s-1";
                    parsedBody := None |} in
  validateApiKey (authHeaders request) secured = true
  ∧ parsedBody request = None
  ∧ (run request secured "uuid-1" idle).1
    = Returned {| status := 202; body := EmptyBody; mcpSessionIdHeader := None |}.
Proof.
  intros request. split; [reflexivity|]. split; [reflexivity|].
  exact (proj1 (proj2 (malformed_body_is_acknowledged tt okDispatcher
                         quietNotifications request secured "uuid-1" idle
                         eq_refl eq_refl))).
Defined.

(** The API-key check on concrete requests. *)
Example api_key_examples :
  validateApiKey withBearer secured = true
  ∧ validateApiKey withApiKey secured = true
  ∧ validateApiKey noCredentials secured = false
  ∧ validateApiKey {| authorization := Some "Bearer wrong"; xApiKey := Some "nope" |}
      secured = false
  ∧ mcpAuthChain noCredentials secured = inl unauthorizedResponse
  ∧ validateApiKey noCredentials
      {| API_KEY := None; REPLICATE_API_TOKEN := None;
         MCP_TITLE := ""; MCP_VERSION := "" |} = true.
Proof. vm_compute. done. Qed.

(** ** The Node route ([http/routes/mcp.ts]) *)

(** The identity of a [StreamableHTTPServerTransport] object. *)
Abbreviation TransportId := nat (only parsing).

(** The options a transport is constructed with. *)
Record TransportOptions : Type := mkTransportOptions {
  sessionIdGenerator : option string;  (* [() => plannedSid], when given *)
  onsessioninitialized : bool;         (* whether the callback is given *)
}.

Record NodeState : Type := mkNodeState {
  registry : Store;                                (* [contextRegistry] *)
  transports : gmap string TransportId;            (* session id to transport *)
  constructed : list TransportOptions;             (* transports made so far *)
  connectedTransports : gset TransportId;          (* the [WeakSet] *)
  connects : list TransportId;                     (* calls of [server.connect] *)
}.

Definition initialNodeState : NodeState :=
  {| registry := emptyStore; transports := ∅; constructed := [];
     connectedTransports := ∅; connects := [] |}.

(** What the POST handler reads of the request and of its Hono context. *)
Record PostRequest : Type := mkPostRequest {
  postSessionIdHeader : option string;            (* [c.req.header(...)] *)
  postBody : option json;                         (* [None]: [c.req.json()] threw *)
  replicateAuth : option ReplicateAuthContext;    (* set by the middleware *)
}.

(** [Boolean(body && body.method === 'initialize')]. *)
Definition isInitialize (body : option json) : bool :=
  match body with
  | Some (JObj fields) =>
      match prop "method" fields with
      | Some (JStr m) => String.eqb m "initialize"
      | _ => false
      end
  | _ => false
  end.

(** [(body as { id?: unknown })?.id ?? null]. *)
Definition bodyIdOrNull (body : option json) : json :=
  match body with
  | Some (JObj fields) => default JNull (prop "id" fields)
  | _ => JNull
  end.

(** [body.id as string | number]: the ids JSON-RPC allows, which are the keys
    of the registry.  The cast is unchecked in the source; numbers are
    integers throughout this model. *)
Definition asRequestId (v : json) : option RequestId :=
  match v with
  | JNum n => Some (IdNum n)
  | JStr s => Some (IdStr s)
  | _ => None
  end.

(** The request id for which the route registers a context:
    [body && typeof body === 'object' && 'id' in body && body.id].
    The source registers a context for every truthy [body.id]; for one that
    is no JSON-RPC id ([true], an array, an object) the key is that value
    itself, which is outside [RequestId], and the model registers none.  The
    properties below are stated for string and integer ids. *)
Definition contextRequestId (body : option json) : option RequestId :=
  match body with
  | Some (JObj fields) =>
      match prop "id" fields with
      | Some v => if truthy v then asRequestId v else None
      | None => None
      end
  | _ => None
  end.

Definition setRegistry (st : NodeState) (r : Store) : NodeState :=
  {| registry := r; transports := transports st; constructed := constructed st;
     connectedTransports := connectedTransports st; connects := connects st |}.

(** "Create request context with server-side Replicate token". *)
Definition registerRequestContext (request : PostRequest) (plannedSid : option string)
    (now : Z) (st : NodeState) : NodeState :=
  match contextRequestId (postBody request) with
  | Some rid =>
      let tok := replicateAuth request ≫= authReplicateToken in
      setRegistry st (ContextRegistry.create rid plannedSid tok now (registry st)).2
  | None => st
  end.

Definition staleSessionResponse (body : option json) : HttpResponse :=
  jsonResponse
    (RpcError {| code := -32600; message := "Invalid session. Please re-initialize." |}
              (bodyIdOrNull body))
    (Some 400%Z).

Definition internalErrorResponse : HttpResponse :=
  jsonResponse
    (RpcError {| code := -32603; message := "Internal server error" |} JNull)
    (Some 500%Z).

Section NodeRoute.

(** [server.connect(transport)] of the MCP SDK: it returns or throws. *)
Variable serverConnect : TransportId → NodeState → Outcome unit.

(** [transport.handleRequest(req, res, body)] of the MCP SDK, with the
    response read back by [toFetchResponse(res)].  It runs the server's
    request handlers, and on [initialize] the [onsessioninitialized] callback,
    so it may change the whole state. *)
Variable transportHandleRequest :
  TransportId → option json → NodeState → Outcome HttpResponse * NodeState.

Definition ensureConnected (transport : TransportId) (st : NodeState)
  : Outcome unit * NodeState :=
  if decide (transport ∈ connectedTransports st) then (Returned (), st)
  else
    let calling :=
      {| registry := registry st; transports := transports st;
         constructed := constructed st;
         connectedTransports := connectedTransports st;
         connects := connects st ++ [transport] |} in
    match serverConnect transport st with
    | Threw e => (Threw e, calling)
    | Returned _ =>
        (Returned (),
         {| registry := registry calling; transports := transports calling;
            constructed := constructed calling;
            connectedTransports := {[transport]} ∪ connectedTransports calling;
            connects := connects calling |})
    end.

(** [app.post('/', ...)]; [uuid] is what [randomUUID()] would return and [now]
    what [Date.now()] would. *)
Definition post (request : PostRequest) (uuid : string) (now : Z) (st : NodeState)
  : HttpResponse * NodeState :=
  let sessionIdHeader := postSessionIdHeader request in
  let body := postBody request in
  let initialize := isInitialize body in
  let plannedSid :=
    if initialize
    then Some (if truthy_str sessionIdHeader then default "" sessionIdHeader else uuid)
    else None in
  let transport :=
    if truthy_str sessionIdHeader
    then sessionIdHeader ≫= (λ sid, transports st !! sid)
    else None in
  if truthy_str sessionIdHeader && negb (bool_decide (is_Some transport))
     && negb initialize
  then (staleSessionResponse body, st)
  else
    let '(transport, st) :=
      match transport with
      | Some t => (t, st)
      | None =>
          (length (constructed st),
           {| registry := registry st; transports := transports st;
              constructed :=
                constructed st ++
                [{| sessionIdGenerator := plannedSid;
                    onsessioninitialized := initialize |}];
              connectedTransports := connectedTransports st;
              connects := connects st |})
      end in
    let st := registerRequestContext request plannedSid now st in
    match ensureConnected transport st with
    | (Threw _, st) => (internalErrorResponse, st)
    | (Returned _, st) =>
        match transportHandleRequest transport body st with
        | (Threw _, st) => (internalErrorResponse, st)
        | (Returned response, st) => (response, st)
        end
    end.

(** A series of calls of [ensureConnected], each awaited before the next; a
    call that throws does not stop the later ones (they belong to other
    requests). *)
Fixpoint ensureConnectedAll (calls : list TransportId) (st : NodeState) : NodeState :=
  match calls with
  | [] => st
  | transport :: rest => ensureConnectedAll rest (ensureConnected transport st).2
  end.

End NodeRoute.

(** *** Properties of the route *)

Section NodeRoute_facts.

Variable serverConnect : TransportId → NodeState → Outcome unit.

(** How often [server.connect] was called on a transport. *)
Definition connectCount (transport : TransportId) (st : NodeState) : nat :=
  count_occ Nat.eq_dec (connects st) transport.

Lemma ensureConnected_connected transport st :
  transport ∈ connectedTransports st →
  ensureConnected serverConnect transport st = (Returned (), st).
Proof. intros H. unfold ensureConnected. by rewrite decide_True. Qed.

Lemma ensureConnected_returned transport st :
  (ensureConnected serverConnect transport st).1 = Returned () →
  transport ∈ connectedTransports (ensureConnected serverConnect transport st).2.
Proof.
  unfold ensureConnected. destruct (decide _) as [Hin|Hout]; [done|].
  destruct (serverConnect transport st); simpl; [|done]. set_solver.
Qed.

Lemma ensureConnected_keeps_connected transport other st :
  other ∈ connectedTransports st →
  other ∈ connectedTransports (ensureConnected serverConnect transport st).2.
Proof.
  intros H. unfold ensureConnected. destruct (decide _); [done|].
  destruct (serverConnect transport st); simpl; [set_solver | done].
Qed.

(** One call performs at most one connect on the transport it is given, and
    none on any other. *)
Lemma ensureConnected_count transport other st :
  connectCount other (ensureConnected serverConnect transport st).2 =
  if decide (transport ∈ connectedTransports st) then connectCount other st
  else if decide (transport = other) then S (connectCount other st)
  else connectCount other st.
Proof.
  unfold ensureConnected, connectCount. destruct (decide (_ ∈ _)); [done|].
  destruct (serverConnect transport st); simpl;
    rewrite count_occ_app; simpl;
    destruct (Nat.eq_dec transport other), (decide (transport = other));
    try done; rewrite ?Nat.add_1_r, ?Nat.add_0_r; done.
Qed.

Lemma ensureConnectedAll_connected calls transport st :
  transport ∈ connectedTransports st →
  transport ∈ connectedTransports (ensureConnectedAll serverConnect calls st)
  ∧ connectCount transport (ensureConnectedAll serverConnect calls st)
    = connectCount transport st.
Proof.
  revert st. induction calls as [|t calls IH]; intros st Hin; simpl; [done|].
  destruct (IH (ensureConnected serverConnect t st).2) as [H1 H2].
  { by apply ensureConnected_keeps_connected. }
  split; [done|]. rewrite H2, ensureConnected_count.
  destruct (decide (t ∈ connectedTransports st)); [done|].
  destruct (decide (t = transport)) as [->|]; done.
Qed.

End NodeRoute_facts.

(** A server whose [connect] never throws. *)
Definition reliableConnect (transport : TransportId) (st : NodeState) : Outcome unit :=
  Returned ().

(** With a reliable server, the log holds one connect for each connected
    transport and none for the others. *)
Lemma reliable_connects_once calls transport :
  connectCount transport (ensureConnectedAll reliableConnect calls initialNodeState)
  = if decide (transport ∈ connectedTransports
                 (ensureConnectedAll reliableConnect calls initialNodeState))
    then 1 else 0.
Proof.
  assert (∀ st,
    (∀ t, connectCount t st = if decide (t ∈ connectedTransports st) then 1 else 0) →
    ∀ t, connectCount t (ensureConnectedAll reliableConnect calls st)
         = if decide (t ∈ connectedTransports
                        (ensureConnectedAll reliableConnect calls st))
           then 1 else 0) as Hinv.
  { induction calls as [|c calls IH]; intros st Hst t; simpl; [done|].
    apply IH. intros t'. rewrite ensureConnected_count, !Hst.
    unfold ensureConnected, reliableConnect.
    destruct (decide (c ∈ connectedTransports st)) as [Hc|Hc]; simpl; [done|].
    destruct (decide (c = t')) as [->|Hne].
    - rewrite decide_False by done.
      rewrite decide_True by (apply elem_of_union_l, elem_of_singleton; done). done.
    - destruct (decide (t' ∈ connectedTransports st)) as [Hin|Hout].
      + rewrite decide_True by (by apply elem_of_union_r). done.
      + rewrite decide_False; [done|].
        intros [Heq%elem_of_singleton|Hin]%elem_of_union; congruence. }
  apply Hinv. intros t. unfold connectCount. simpl.
  rewrite decide_False by set_solver. done.
Qed.

(** C8. A call of "ensure connected" that returns leaves the transport
    connected after at most one connect step; from then on every call on that
    transport returns at once with the state as it is, and no series of later
    calls, on this or on other transports, connects it again.  With a server
    whose connect does not fail, any series of calls from the initial state
    connects each transport at most once. *)
Theorem ensureConnected_connects_at_most_once
    (serverConnect : TransportId → NodeState → Outcome unit)
    (transport : TransportId) (st : NodeState) (calls : list TransportId) :
  (match (ensureConnected serverConnect transport st).1 with
   | Returned _ =>
       let st1 := (ensureConnected serverConnect transport st).2 in
       transport ∈ connectedTransports st1
       ∧ (connectCount transport st1 ≤ S (connectCount transport st))%nat
       ∧ ensureConnected serverConnect transport st1 = (Returned (), st1)
       ∧ connectCount transport (ensureConnectedAll serverConnect calls st1)
         = connectCount transport st1
   | Threw _ => True
   end)
  ∧ (connectCount transport
       (ensureConnectedAll reliableConnect calls initialNodeState) ≤ 1)%nat.
Proof.
  split.
  - destruct (ensureConnected serverConnect transport st).1 as [[]|] eqn:Hr; [|done].
    cbv zeta. pose proof (ensureConnected_returned serverConnect _ _ Hr) as Hin.
    repeat split.
    + done.
    + rewrite ensureConnected_count. repeat case_decide; lia.
    + by apply ensureConnected_connected.
    + by apply ensureConnectedAll_connected.
  - rewrite reliable_connects_once. case_decide; lia.
Qed.

(** "Ensure connected" twice on a new transport: one connect. *)
Example ensureConnected_twice :
  connects (ensureConnectedAll reliableConnect [0; 0] initialNodeState) = [0]
  ∧ connects (ensureConnectedAll reliableConnect [0; 1; 0; 1; 1] initialNodeState) = [0; 1].
Proof. vm_compute. done. Qed.

(** C3. A POST that reaches the route with a session id (a non-empty
    [Mcp-Session-Id] header) for which the session map holds no transport, and
    whose method is not [initialize], is answered with the JSON-RPC error
    -32600 "Invalid session. Please re-initialize." (HTTP 400); nothing is
    created for it: no transport, no session entry, no request context. *)
Theorem stale_session_is_rejected
    (serverConnect : TransportId → NodeState → Outcome unit)
    (transportHandleRequest :
       TransportId → option json → NodeState → Outcome HttpResponse * NodeState)
    (request : PostRequest) (uuid : string) (now : Z) (st : NodeState) (sid : string) :
  postSessionIdHeader request = Some sid →
  sid ≠ "" →
  transports st !! sid = None →
  isInitialize (postBody request) = false →
  post serverConnect transportHandleRequest request uuid now st =
  ({| status := 400;
      body := JsonRpcBody
                (RpcError {| code := -32600;
                             message := "Invalid session. Please re-initialize." |}
                          (bodyIdOrNull (postBody request)));
      mcpSessionIdHeader := None |}, st).
Proof.
  intros Hh Hne Hnone Hinit. unfold post. rewrite Hh, Hinit. simpl.
  apply String.eqb_neq in Hne. by rewrite Hne, Hnone.
Qed.

Definition sdkStub (transport : TransportId) (body : option json) (st : NodeState)
  : Outcome HttpResponse * NodeState :=
  (Returned {| status := 200; body := EmptyBody; mcpSessionIdHeader := None |}, st).

Lemma stale_session_is_rejected_witness :
  let request := {| postSessionIdHeader := Some "stale-1";
                    postBody := Some (listTools (JNum 3));
                    replicateAuth := None |} in
  postSessionIdHeader request = Some "stale-1"
  ∧ "stale-1" ≠ ""
  ∧ transports initialNodeState !! "stale-1" = None
  ∧ isInitialize (postBody request) = false
  ∧ post reliableConnect sdkStub request "uuid-1" 1000 initialNodeState =
    ({| status := 400;
        body := JsonRpcBody
                  (RpcError {| code := -32600;
                               message := "Invalid session. Please re-initialize." |}
                            (JNum 3));
        mcpSessionIdHeader := None |}, initialNodeState).
Proof.
  intros request.
  assert ("stale-1" ≠ "") as Hne by discriminate.
  split; [reflexivity|]. split; [exact Hne|].
  split; [reflexivity|]. split; [reflexivity|].
  exact (stale_session_is_rejected reliableConnect sdkStub request "uuid-1" 1000
           initialNodeState "stale-1" eq_refl Hne eq_refl eq_refl).
Defined.

(** The same request with a session the map knows, or with no session id at
    all, is handed to the transport. *)
Example known_or_absent_session_is_served :
  let body := Some (listTools (JNum 3)) in
  let live :=
    {| registry := emptyStore; transports := {[ "s-1" := 0 ]};
       constructed := [{| sessionIdGenerator := Some "s-1";
                          onsessioninitialized := true |}];
       connectedTransports := {[ 0 ]}; connects := [0] |} in
  status (post reliableConnect sdkStub
            {| postSessionIdHeader := Some "s-1"; postBody := body;
               replicateAuth := None |} "uuid-1" 1000 live).1 = 200%Z
  ∧ status (post reliableConnect sdkStub
              {| postSessionIdHeader := None; postBody := body;
                 replicateAuth := None |} "uuid-1" 1000 live).1 = 200%Z.
Proof. vm_compute. done. Qed.

(** ** Tools ([tools/index.ts], [tools/*.tool.ts]) *)

Definition nl : string := String (ascii_of_nat 10) "".
Definition dq : string := String (ascii_of_nat 34) "".

(** A text of several lines. *)
Definition lines (ls : list string) : string := String.concat nl ls.






(** One entry of [parsed.error.errors]; the path is given with its numeric
    segments in decimal. *)
Record ZodIssue : Type := mkIssue {
  issuePath : list string;
  issueMessage : string;
}.

(** The result of [schema.safeParse(args)]. *)
Inductive SafeParseResult (A : Type) : Type :=
| ParseSuccess (data : A)
| ParseFailure (errors : list ZodIssue).
Arguments ParseSuccess {A} data.
Arguments ParseFailure {A} errors.

Inductive ContentBlock : Type :=
| TextContent (text : string).

Record CallToolResult : Type := mkToolResult {
  isError : option bool;
  content : list ContentBlock;
}.

(** The calls a handler makes to the Replicate service
    ([services/api/replicate.service.ts]). *)
Inductive UpstreamCall : Type :=
| RunPrediction (modelId : string) (input : list (string * json)) (apiToken : string)
| SearchModels (query apiToken : string).

(** A handler's run: how it settled and what it asked of the service. *)
Record ToolRun : Type := mkToolRun {
  settled : Outcome CallToolResult;
  upstreamCalls : list UpstreamCall;
}.

Inductive PredictionStatus : Type :=
| starting | processing | succeeded | failed | canceled.

(** [parsed.error.errors.map(err => `- ${err.path.join('.')}: ${err.message}`)]. *)
Definition issueLine (err : ZodIssue) : string :=
  "- " +:+ String.concat "." (issuePath err) +:+ ": " +:+ issueMessage err.

Definition errorDetails (errors : list ZodIssue) : string :=
  String.concat nl (map issueLine errors).

(** [String.prototype.includes]. *)
Fixpoint includes (needle hay : string) : bool :=
  String.prefix needle hay ||
  match hay with
  | String _ rest => includes needle rest
  | EmptyString => false
  end.

(** [String.prototype.toLowerCase], on the letters A to Z. *)
Definition lowerChar (c : ascii) : ascii :=
  let n := nat_of_ascii c in
  if Nat.leb 65 n && Nat.leb n 90 then ascii_of_nat (n + 32) else c.

Fixpoint toLowerCase (s : string) : string :=
  match s with
  | String c r => String (lowerChar c) (toLowerCase r)
  | EmptyString => EmptyString
  end.

Definition isRateLimit (errorMsg : string) : bool :=
  includes "rate limit" (toLowerCase errorMsg)
  || includes "too many requests" (toLowerCase errorMsg)
  || includes "429" errorMsg.

Definition returns (isError : option bool) (text : string) (calls : list UpstreamCall)
  : ToolRun :=
  {| settled := Returned {| isError := isError; content := [TextContent text] |};
     upstreamCalls := calls |}.

Definition serverConfigurationError : string :=
  lines ["## Server Configuration Error"; "";
         "REPLICATE_API_TOKEN is not configured on the server."; "";
         "Contact the server administrator."].

Section Tools.

(** Numbers of seconds are floating-point values; the handlers only test one
    for truthiness and print it with one decimal.  The text that
    [search_models] prints for one model goes through [toLocaleString] and
    [JSON.stringify], and is taken as given. *)
Context {Seconds Model : Type}.
Variable nonZero : Seconds → bool.
Variable toFixed1 : Seconds → string.
Variable describeModel : Model → string.

Record Metrics : Type := mkMetrics {
  predict_time : option Seconds;
}.

(** [PredictionResult] of the Replicate service. *)
Record PredictionResult : Type := mkPrediction {
  predictionId : string;
  predictionStatus : PredictionStatus;
  output : option (list string);
  predictionError : option string;
  metrics : option Metrics;
}.

Record GenerateImageInput : Type := mkGenerateImageInput {
  model : string;
  input : list (string * json);
}.

Record SearchModelsInput : Type := mkSearchModelsInput {
  query : string;
}.

(** [safeParse] of the two zod schemas. *)
Variable GenerateImageInputSchema : json → SafeParseResult GenerateImageInput.
Variable SearchModelsInputSchema : json → SafeParseResult SearchModelsInput.

(** The Replicate service: [runPrediction(modelId, input, apiToken)] and
    [searchModels(query, apiToken)] resolve or reject. *)
Variable runPrediction :
  string → list (string * json) → string → Outcome PredictionResult.
Variable searchModels : string → string → Outcome (list Model).

Definition rateLimitExceeded (model : string) : string :=
  lines ["## Rate Limit Exceeded"; "";
         "Model: " +:+ model; "";
         "The Replicate API rate limit has been reached. Please wait a moment before trying again."].

Definition missingRequiredInput (model : string) : string :=
  lines ["## Missing Required Input"; "";
         "Most image models require at least a prompt or image in the input."; "";
         "Example:";
         "{";
         "  " +:+ dq +:+ "model" +:+ dq +:+ ": " +:+ dq +:+ model +:+ dq +:+ ",";
         "  " +:+ dq +:+ "input" +:+ dq +:+ ": {";
         "    " +:+ dq +:+ "prompt" +:+ dq +:+ ": " +:+ dq
           +:+ "a beautiful sunset over mountains" +:+ dq;
         "  }";
         "}"; "";
         "Use search_models to see the exact requirements for " +:+ dq +:+ model
           +:+ dq +:+ "."].

(** The markdown for the generated images. *)
Definition markdownImages (outputUrls : list string) : string :=
  String.concat (nl +:+ nl)
    (imap (λ i url,
       if Nat.ltb 1 (length outputUrls)
       then "Image " +:+ pretty (i + 1)%nat +:+ ": ![Generated image "
            +:+ pretty (i + 1)%nat +:+ "](" +:+ url +:+ ")"
       else "![Generated image](" +:+ url +:+ ")") outputUrls).

(** [generateImageTool.handler]. *)
Definition generateImageHandler (args : json) (context : option RequestContext)
  : ToolRun :=
  match GenerateImageInputSchema args with
  | ParseFailure errors =>
      returns (Some true)
        ("## Invalid Input" +:+ nl +:+ nl +:+ errorDetails errors +:+ nl +:+ nl
         +:+ "Tip: Use search_models to see the correct input schema for your model.")
        []
  | ParseSuccess data =>
      let apiToken := context ≫= replicateToken in
      if negb (truthy_str apiToken) then
        returns (Some true) serverConfigurationError []
      else
        let model := model data in
        let input := input data in
        if negb (truthy_opt (prop "prompt" input))
           && negb (truthy_opt (prop "image" input))
        then returns (Some true) (missingRequiredInput model) []
        else
          let calls := [RunPrediction model input (default "" apiToken)] in
          match runPrediction model input (default "" apiToken) with
          | Returned prediction =>
              match predictionStatus prediction with
              | failed =>
                  let errorMsg :=
                    if truthy_str (predictionError prediction)
                    then default "" (predictionError prediction)
                    else "Unknown error" in
                  returns (Some true)
                    (if isRateLimit errorMsg then rateLimitExceeded model
                     else lines ["## Generation Failed"; "";
                                 "Model: " +:+ model;
                                 "Error: " +:+ errorMsg; "";
                                 "Suggestions:";
                                 "- Check that all required parameters are provided";
                                 "- Verify image URLs are publicly accessible";
                                 "- Try a simpler prompt";
                                 "- Use search_models to verify input schema"])
                    calls
              | canceled =>
                  returns (Some true)
                    (lines ["## Generation Cancelled"; "";
                            "The prediction was cancelled before completion."])
                    calls
              | _ =>
                  let outputUrls := default [] (output prediction) in
                  let timeInfo :=
                    match metrics prediction ≫= predict_time with
                    | Some t => if nonZero t then " in " +:+ toFixed1 t +:+ "s" else ""
                    | None => ""
                    end in
                  returns None
                    (lines ["## Image Generated" +:+ timeInfo; "";
                            "Model: " +:+ model; "";
                            "Display the image to the user using markdown syntax:"; "";
                            markdownImages outputUrls; "";
                            "Note: URLs expire in 1 hour."])
                    calls
              end
          | Threw errorMsg =>
              returns (Some true)
                (if isRateLimit errorMsg then rateLimitExceeded model
                 else lines ["## Generation Failed"; "";
                             "Model: " +:+ model;
                             "Error: " +:+ errorMsg; "";
                             "Common issues:";
                             "- Model name is incorrect (use search_models to find it)";
                             "- Missing required parameters (use search_models to check schema)";
                             "- Image URLs not publicly accessible";
                             "- Rate limit exceeded"])
                calls
          end
  end.

(** [searchModelsTool.handler]. *)
Definition searchModelsHandler (args : json) (context : option RequestContext)
  : ToolRun :=
  match SearchModelsInputSchema args with
  | ParseFailure errors =>
      returns (Some true) ("## Invalid Input" +:+ nl +:+ nl +:+ errorDetails errors) []
  | ParseSuccess data =>
      let apiToken := context ≫= replicateToken in
      if negb (truthy_str apiToken) then
        returns (Some true) serverConfigurationError []
      else
        let query := query data in
        let calls := [SearchModels query (default "" apiToken)] in
        match searchModels query (default "" apiToken) with
        | Returned [] =>
            returns None
              (lines ["## No Models Found"; "";
                      "No models matched the query " +:+ dq +:+ query +:+ dq +:+ "."; "";
                      "Try:";
                      "- Using different keywords";
                      "- Searching for model names like " +:+ dq +:+ "flux" +:+ dq
                        +:+ ", " +:+ dq +:+ "sdxl" +:+ dq +:+ ", " +:+ dq
                        +:+ "stable-diffusion" +:+ dq])
              calls
        | Returned models =>
            let modelList :=
              String.concat (nl +:+ nl +:+ "---" +:+ nl +:+ nl)
                            (map describeModel models) in
            returns None
              (lines ["## Found " +:+ pretty (length models) +:+ " Models for "
                        +:+ dq +:+ query +:+ dq; "";
                      modelList; "";
                      "---"; "";
                      "You can now call generate_image with any of these models using the parameters shown above."])
              calls
        | Threw errorMsg =>
            returns (Some true)
              (if isRateLimit errorMsg
               then lines ["## Rate Limit Exceeded"; "";
                           "The Replicate API rate limit has been reached. Please wait a moment before trying again."]
               else lines ["## Search Failed"; "";
                           "Error: " +:+ errorMsg; "";
                           "Please check the query and try again."])
              calls
        end
  end.

(** The [extra] argument the MCP SDK passes to a tool callback. *)
Record Extra : Type := mkExtra {
  extraRequestId : option RequestId;
}.

(** The first half of the wrapped handler: the context handed to the tool. *)
Definition acquireContext (requestId : option RequestId) (now : Z) (st : Store)
  : RequestContext * Store :=
  match requestId with
  | Some rid =>
      if truthy_id rid then
        match ContextRegistry.get rid st with
        | Some existingContext => (existingContext, st)
        | None => ContextRegistry.create rid None None now st
        end
      else
        let '(r, st1) := createCancellationToken st in
        ({| sessionId := None; cancellationToken := r; requestId := None;
            timestamp := now; replicateToken := None |}, st1)
  | None =>
      let '(r, st1) := createCancellationToken st in
      ({| sessionId := None; cancellationToken := r; requestId := None;
          timestamp := now; replicateToken := None |}, st1)
  end.

(** The [finally] block of the wrapped handler. *)
Definition releaseContext (requestId : option RequestId) (st : Store) : Store :=
  match requestId with
  | Some rid => if truthy_id rid then ContextRegistry.delete rid st else st
  | None => st
  end.

(** [createWrappedHandler(server, handler)], called with [args] and [extra]. *)
Definition wrappedHandler (handler : json → option RequestContext → ToolRun)
    (args : json) (extra : option Extra) (now : Z) (st : Store) : ToolRun * Store :=
  let requestId := extra ≫= extraRequestId in
  let '(context, st1) := acquireContext requestId now st in
  (handler args (Some context), releaseContext requestId st1).

(** The tools [registerTools] registers. *)
Inductive ToolName : Type := search_models | generate_image.

Definition toolHandler (tool : ToolName) : json → option RequestContext → ToolRun :=
  match tool with
  | search_models => searchModelsHandler
  | generate_image => generateImageHandler
  end.




(** *** Properties of the tools *)


Lemma truthy_contextRequestId body rid :
  contextRequestId body = Some rid → truthy_id rid = true.
Proof.
  unfold contextRequestId. destruct body as [[]|]; try done.
  destruct (prop "id" fields) as [v|]; [|done].
  destruct (truthy v) eqn:Hv; [|done].
  destruct v; simpl in *; try done; by intros [= <-].
Qed.

Lemma wrappedHandler_run handler args extra now st :
  (wrappedHandler handler args extra now st).1
  = handler args (Some (acquireContext (extra ≫= extraRequestId) now st).1).
Proof.
  unfold wrappedHandler. by destruct (acquireContext _ now st).
Qed.

Lemma wrappedHandler_store handler args extra now st :
  (wrappedHandler handler args extra now st).2
  = releaseContext (extra ≫= extraRequestId)
      (acquireContext (extra ≫= extraRequestId) now st).2.
Proof.
  unfold wrappedHandler. by destruct (acquireContext _ now st).
Qed.

(** For a request id that is truthy, the context the route registered is the
    one the tool gets, it is registered while the tool runs, and it is gone
    once the wrapped handler has settled, however the tool settled. *)
Lemma registered_context_lifetime (handler : json → option RequestContext → ToolRun)
    (request : PostRequest) (plannedSid : option string) (args : json)
    (now later : Z) (st : NodeState) (rid : RequestId) :
  contextRequestId (postBody request) = Some rid →
  let st1 := registry (registerRequestContext request plannedSid now st) in
  let extra := Some {| extraRequestId := Some rid |} in
  ∃ context,
    ContextRegistry.get rid st1 = Some context
    ∧ replicateToken context = replicateAuth request ≫= authReplicateToken
    ∧ acquireContext (Some rid) later st1 = (context, st1)
    ∧ (wrappedHandler handler args extra later st1).1 = handler args (Some context)
    ∧ ContextRegistry.get rid (wrappedHandler handler args extra later st1).2 = None.
Proof.
  intros Hid. cbv zeta. pose proof (truthy_contextRequestId _ _ Hid) as Ht.
  unfold registerRequestContext. rewrite Hid.
  set (tok := replicateAuth request ≫= authReplicateToken).
  set (created := ContextRegistry.create rid plannedSid tok now (registry st)).
  assert (registry (setRegistry st created.2) = created.2) as -> by done.
  assert (ContextRegistry.get rid created.2 = Some created.1) as Hget.
  { unfold ContextRegistry.get, created. simpl. apply lookup_insert_eq. }
  assert (acquireContext (Some rid) later created.2 = (created.1, created.2)) as Hacq.
  { unfold acquireContext. by rewrite Ht, Hget. }
  exists created.1. split; [done|]. split; [done|]. split; [done|].
  rewrite wrappedHandler_run, wrappedHandler_store.
  change (Some {| extraRequestId := Some rid |} ≫= extraRequestId) with (Some rid).
  rewrite Hacq. split; [done|].
  unfold releaseContext. rewrite Ht.
  unfold ContextRegistry.get, ContextRegistry.delete. simpl. apply lookup_delete_eq.
Qed.

(** For the request id 0 the route registers nothing, and the wrapped handler
    hands the tool a context of its own making, without the Replicate token;
    no context is registered under 0 at any point. *)
Lemma zero_id_context (handler : json → option RequestContext → ToolRun)
    (request : PostRequest) (plannedSid : option string) (args : json)
    (now later : Z) (st : NodeState) :
  bodyIdOrNull (postBody request) = JNum 0 →
  let extra := Some {| extraRequestId := Some (IdNum 0) |} in
  registerRequestContext request plannedSid now st = st
  ∧ replicateToken (acquireContext (Some (IdNum 0)) later (registry st)).1 = None
  ∧ contexts (acquireContext (Some (IdNum 0)) later (registry st)).2
    = contexts (registry st)
  ∧ contexts (wrappedHandler handler args extra later (registry st)).2
    = contexts (registry st).
Proof.
  intros Hid. cbv zeta.
  assert (contextRequestId (postBody request) = None) as Hnone.
  { unfold bodyIdOrNull in Hid. unfold contextRequestId.
    destruct (postBody request) as [[]|]; try done.
    destruct (prop "id" fields) as [v|]; [|done]. simpl in Hid. by subst v. }
  split. { unfold registerRequestContext. by rewrite Hnone. }
  rewrite wrappedHandler_store. done.
Qed.



(** C10. When the arguments of [generate_image] satisfy the schema and the
    context carries a Replicate token, but the input has neither a truthy
    [prompt] nor a truthy [image], the handler returns [isError: true] with
    the "Missing Required Input" text and does not call the Replicate service,
    whatever else the input holds ([image_input] included). *)
Theorem missing_prompt_and_image_is_refused (args : json)
    (context : option RequestContext) (data : GenerateImageInput) :
  GenerateImageInputSchema args = ParseSuccess data →
  truthy_str (context ≫= replicateToken) = true →
  truthy_opt (prop "prompt" (input data)) = false →
  truthy_opt (prop "image" (input data)) = false →
  generateImageHandler args context
  = {| settled := Returned
         {| isError := Some true;
            content := [TextContent (missingRequiredInput (model data))] |};
       upstreamCalls := [] |}
  ∧ String.prefix "## Missing Required Input" (missingRequiredInput (model data)) = true.
Proof.
  intros Hp Ht Hprompt Himage. unfold generateImageHandler.
  rewrite Hp, Ht, Hprompt, Himage. simpl. split; [done|].
  unfold missingRequiredInput, lines. simpl String.concat. reflexivity.
Qed.

End Tools.

Arguments PredictionResult : clear implicits.
Arguments Metrics : clear implicits.

(** *** The tools on concrete calls *)

Module ToolExamples.

(** Stand-ins for the two zod schemas, enough to run the handlers: they
    check that the fields are there and have the right type. *)
Definition sampleGenerateSchema (args : json) : SafeParseResult GenerateImageInput :=
  match args with
  | JObj fields =>
      match prop "model" fields, prop "input" fields with
      | Some (JStr m), Some (JObj i) => ParseSuccess {| model := m; input := i |}
      | m, i =>
          ParseFailure
            (match m with
             | Some (JStr _) => []
             | Some _ => [{| issuePath := ["model"];
                             issueMessage := "Expected string" |}]
             | None => [{| issuePath := ["model"]; issueMessage := "Required" |}]
             end ++
             match i with
             | Some (JObj _) => []
             | Some _ => [{| issuePath := ["input"];
                             issueMessage := "Expected object" |}]
             | None => [{| issuePath := ["input"]; issueMessage := "Required" |}]
             end)
      end
  | _ => ParseFailure [{| issuePath := []; issueMessage := "Expected object" |}]
  end.

Definition sampleSearchSchema (args : json) : SafeParseResult SearchModelsInput :=
  match args with
  | JObj fields =>
      match prop "query" fields with
      | Some (JStr q) => ParseSuccess {| query := q |}
      | Some _ => ParseFailure [{| issuePath := ["query"];
                                   issueMessage := "Expected string" |}]
      | None => ParseFailure [{| issuePath := ["query"]; issueMessage := "Required" |}]
      end
  | _ => ParseFailure [{| issuePath := []; issueMessage := "Expected object" |}]
  end.

(** A service on which every prediction succeeds with one image, and every
    search finds nothing.  Times are in tenths of a second. *)
Definition sampleRun (modelId : string) (input : list (string * json))
    (apiToken : string) : Outcome (PredictionResult nat) :=
  Returned {| predictionId := "p1"; predictionStatus := succeeded;
              output := Some ["https://x/y.png"]; predictionError := None;
              metrics := Some {| predict_time := Some 21 |} |}.

Definition sampleSearch (query apiToken : string) : Outcome (list unit) :=
  Returned [].

Definition tenths (t : nat) : string :=
  pretty (t / 10)%nat +:+ "." +:+ pretty (t mod 10)%nat.

Definition generate : json → option RequestContext → ToolRun :=
  generateImageHandler (λ t, negb (Nat.eqb t 0)) tenths sampleGenerateSchema sampleRun.

Definition sampleTool : ToolName → json → option RequestContext → ToolRun :=
  toolHandler (λ t, negb (Nat.eqb t 0)) tenths (λ _ : unit, "")
              sampleGenerateSchema sampleSearchSchema sampleRun sampleSearch.

(** [{"model":"a/b","input":{...}}] *)
Definition generateArgs (input : list (string * json)) : json :=
  JObj [("model", JStr "a/b"); ("input", JObj input)].

(** A [tools/call] of [generate_image] with a prompt. *)
Definition callGenerate (id : json) : json :=
  JObj [("jsonrpc", JStr "2.0"); ("id", id); ("method", JStr "tools/call");
        ("params", JObj [("name", JStr "generate_image");
                         ("arguments", generateArgs [("prompt", JStr "x")])])].

(** The auth context of a request that passed the check, on a server that
    holds a Replicate token. *)
Definition passed : option ReplicateAuthContext :=
  Some {| authenticated := true; authReplicateToken := Some "r8_token" |}.

Definition withToken : option RequestContext :=
  Some {| sessionId := None; cancellationToken := 1%positive; requestId := None;
          timestamp := 0; replicateToken := Some "r8_token" |}.

End ToolExamples.

Import ToolExamples.

(** The end-to-end cases of the specification: a prediction that succeeds,
    and a server without the Replicate token. *)
Example generate_image_end_to_end :
  generate (generateArgs [("prompt", JStr "x")]) withToken
  = {| settled := Returned
         {| isError := None;
            content := [TextContent
              (lines ["## Image Generated in 2.1s"; "";
                      "Model: a/b"; "";
                      "Display the image to the user using markdown syntax:"; "";
                      "![Generated image](https://x/y.png)"; "";
                      "Note: URLs expire in 1 hour."])] |};
       upstreamCalls := [RunPrediction "a/b" [("prompt", JStr "x")] "r8_token"] |}
  ∧ generate (generateArgs [("prompt", JStr "x")]) None
    = {| settled := Returned
           {| isError := Some true;
              content := [TextContent serverConfigurationError] |};
         upstreamCalls := [] |}.
Proof. vm_compute. done. Qed.

(** *** The input schemas, check by check *)

(** The two schemas of the tools, as zod evaluates them.  [strictSchema] of
    [schemas/common.ts] is not among the sources: it is taken to build
    [z.object(shape)], and what it reports for an object that holds keys
    outside the shape is a parameter. *)
Module Zod.

(** [getParsedType(data)] on parsed JSON; [None] stands for [undefined]. *)
Definition parsedType (data : option json) : string :=
  match data with
  | None => "undefined"
  | Some JNull => "null"
  | Some (JBool _) => "boolean"
  | Some (JNum _) => "number"
  | Some (JStr _) => "string"
  | Some (JArr _) => "array"
  | Some (JObj _) => "object"
  end.

(** The message of an [invalid_type] issue. *)
Definition invalidType (expected : string) (data : option json) : string :=
  match data with
  | None => "Required"
  | Some _ => "Expected " +:+ expected +:+ ", received " +:+ parsedType data
  end.

(** [.min(n, message)] and [.regex(re, message)] on [z.string()]. *)
Inductive StringCheck : Type :=
| min (minLength : nat) (message : string)
| regex (test : string → bool) (message : string).

(** The message of the issue a check raises on [data], if it fails. *)
Definition checkIssue (data : string) (check : StringCheck) : option string :=
  match check with
  | min minLength message =>
      if Nat.ltb (String.length data) minLength then Some message else None
  | regex test message => if test data then None else Some message
  end.

(** [z.string()] with its checks: a value of another type is one issue; on a
    string every check runs, and each one that fails is an issue. *)
Definition zString (checks : list StringCheck) (data : option json) : list string :=
  match data with
  | Some (JStr text) => omap (checkIssue text) checks
  | _ => [invalidType "string" data]
  end.

(** [z.record(z.any())]: any object. *)
Definition zRecordAny (data : option json) : list string :=
  match data with
  | Some (JObj _) => []
  | _ => [invalidType "object" data]
  end.

(** The issues of the field [key]. *)
Definition issuesAt (key : string) (messages : list string) : list ZodIssue :=
  map (λ message, {| issuePath := [key]; issueMessage := message |}) messages.

Fixpoint noSlash (text : string) : bool :=
  match text with
  | String c rest => negb (Ascii.eqb c "/"%char) && noSlash rest
  | EmptyString => true
  end.

(** [/^[^/]+\/[^/]+$/.test(text)], with [seen] once a character of the first
    part has been read. *)
Fixpoint ownerThenName (seen : bool) (text : string) : bool :=
  match text with
  | String c rest =>
      if Ascii.eqb c "/"%char
      then seen && negb (String.eqb rest "") && noSlash rest
      else ownerThenName true rest
  | EmptyString => false
  end.

Definition ownerSlashName (text : string) : bool := ownerThenName false text.

Example ownerSlashName_cases :
  map ownerSlashName ["black-forest-labs/flux-schnell"; "a/b"; ""; "flux"; "/b"; "a/";
                      "a/b/c"; "a//b"]
  = [true; true; false; false; false; false; false; false].
Proof. reflexivity. Qed.

Section strictSchema.

(** The issues [strictSchema] adds for an object with keys outside the shape. *)
Variable unknownKeys : list (string * json) → list ZodIssue.

Definition outsideShape (shape : list string) (fields : list (string * json))
  : list ZodIssue :=
  if forallb (λ field, existsb (String.eqb field.1) shape) fields then []
  else unknownKeys fields.

(** [GenerateImageInputSchema.safeParse(args)]. *)
Definition GenerateImageInputSchema (args : json) : SafeParseResult GenerateImageInput :=
  match args with
  | JObj fields =>
      let errors :=
        issuesAt "model"
          (zString
             [min 1 "Model cannot be empty";
              regex ownerSlashName
                ("Model must be in format " +:+ dq +:+ "owner/name" +:+ dq
                 +:+ " (e.g., " +:+ dq +:+ "black-forest-labs/flux-schnell"
                 +:+ dq +:+ ")")]
             (prop "model" fields))
        ++ issuesAt "input" (zRecordAny (prop "input" fields))
        ++ outsideShape ["model"; "input"] fields in
      match errors, prop "model" fields, prop "input" fields with
      | [], Some (JStr model), Some (JObj input) =>
          ParseSuccess {| model := model; input := input |}
      | _, _, _ => ParseFailure errors
      end
  | _ => ParseFailure [{| issuePath := [];
                          issueMessage := invalidType "object" (Some args) |}]
  end.

(** [SearchModelsInputSchema.safeParse(args)]. *)
Definition SearchModelsInputSchema (args : json) : SafeParseResult SearchModelsInput :=
  match args with
  | JObj fields =>
      let errors :=
        issuesAt "query" (zString [min 1 "Query cannot be empty"] (prop "query" fields))
        ++ outsideShape ["query"] fields in
      match errors, prop "query" fields with
      | [], Some (JStr query) => ParseSuccess {| query := query |}
      | _, _ => ParseFailure errors
      end
  | _ => ParseFailure [{| issuePath := [];
                          issueMessage := invalidType "object" (Some args) |}]
  end.

(** A schema that fails reports at least one issue. *)
Lemma GenerateImageInputSchema_failure (args : json) (errors : list ZodIssue) :
  GenerateImageInputSchema args = ParseFailure errors → errors ≠ [].
Proof.
  unfold GenerateImageInputSchema. destruct args as [| | | | |fields]; try by intros [= <-].
  cbv zeta. intros H ->. revert H.
  destruct (prop "model" fields) as [[]|], (prop "input" fields) as [[]|];
    repeat case_match; simpl in *; try done;
    match goal with H : _ ++ _ = [] |- _ => by apply app_eq_nil in H as [_ ?] end.
Qed.

Lemma SearchModelsInputSchema_failure (args : json) (errors : list ZodIssue) :
  SearchModelsInputSchema args = ParseFailure errors → errors ≠ [].
Proof.
  unfold SearchModelsInputSchema. destruct args as [| | | | |fields]; try by intros [= <-].
  cbv zeta. intros H ->. revert H.
  destruct (prop "query" fields) as [[]|]; repeat case_match; simpl in *; done.
Qed.

End strictSchema.

End Zod.

Module SchemaExamples.





End SchemaExamples.

Import SchemaExamples.



Lemma missing_prompt_and_image_is_refused_witness :
  let args := generateArgs [("image_input", JArr [JStr "https://x/1.png"]);
                            ("aspect_ratio", JStr "16:9")] in
  let data := {| model := "a/b";
                 input := [("image_input", JArr [JStr "https://x/1.png"]);
                           ("aspect_ratio", JStr "16:9")] |} in
  sampleGenerateSchema args = ParseSuccess data
  ∧ truthy_str (withToken ≫= replicateToken) = true
  ∧ truthy_opt (prop "prompt" (input data)) = false
  ∧ truthy_opt (prop "image" (input data)) = false
  ∧ generate args withToken
    = {| settled := Returned
           {| isError := Some true;
              content := [TextContent (missingRequiredInput "a/b")] |};
         upstreamCalls := [] |}.
Proof.
  intros args data.
  split; [reflexivity|]. split; [reflexivity|].
  split; [reflexivity|]. split; [reflexivity|].
  exact (proj1 (missing_prompt_and_image_is_refused
                  (λ t, negb (Nat.eqb t 0)) tenths sampleGenerateSchema sampleRun
                  args withToken data eq_refl eq_refl eq_refl eq_refl)).
Defined.

(** C1 at the request id 0, on a server that holds a Replicate token.  The
    route registers no context for the request and the wrapped handler makes
    one of its own, outside the registry and without the token: the registry
    has no entry for 0 before, while or after the tool runs, and
    [generate_image] answers with the configuration error instead of calling
    the service.  The same call with the id 1 finds its context registered,
    with the token, and reaches the service. *)
Theorem request_id_zero_is_served_without_context :
  let post0 := {| postSessionIdHeader := None; postBody := Some (callGenerate (JNum 0));
                  replicateAuth := passed |} in
  let post1 := {| postSessionIdHeader := None; postBody := Some (callGenerate (JNum 1));
                  replicateAuth := passed |} in
  let args := generateArgs [("prompt", JStr "x")] in
  let st0 := registry (registerRequestContext post0 None 1000 initialNodeState) in
  let st1 := registry (registerRequestContext post1 None 1000 initialNodeState) in
  let run0 := wrappedHandler generate args
                (Some {| extraRequestId := Some (IdNum 0) |}) 1001 st0 in
  let run1 := wrappedHandler generate args
                (Some {| extraRequestId := Some (IdNum 1) |}) 1001 st1 in
  (ContextRegistry.get (IdNum 0) st0 = None
   ∧ ContextRegistry.get (IdNum 0) (acquireContext (Some (IdNum 0)) 1001 st0).2 = None
   ∧ replicateToken (acquireContext (Some (IdNum 0)) 1001 st0).1 = None
   ∧ run0.1 = {| settled := Returned
                   {| isError := Some true;
                      content := [TextContent serverConfigurationError] |};
                 upstreamCalls := [] |}
   ∧ ContextRegistry.get (IdNum 0) run0.2 = None)
  ∧ (replicateToken <$> ContextRegistry.get (IdNum 1) st1 = Some (Some "r8_token")
     ∧ ContextRegistry.get (IdNum 1) (acquireContext (Some (IdNum 1)) 1001 st1).2
       = ContextRegistry.get (IdNum 1) st1
     ∧ upstreamCalls run1.1 = [RunPrediction "a/b" [("prompt", JStr "x")] "r8_token"]
     ∧ ContextRegistry.get (IdNum 1) run1.2 = None).
Proof. vm_compute. done. Qed.

(** * Further properties of the code *)

(** ** The context registry under sequences of operations *)

Module RegistryRuns.

(** The operations of [ContextRegistry] that change the store. *)
Inductive RegistryOp : Type :=
| OpCreate (rid : RequestId) (sid tok : option string) (now : Z)
| OpCancel (rid : RequestId)
| OpDelete (rid : RequestId)
| OpCleanup (now : Z).

Definition applyOp (st : Store) (op : RegistryOp) : Store :=
  match op with
  | OpCreate rid sid tok now => (ContextRegistry.create rid sid tok now st).2
  | OpCancel rid => (ContextRegistry.cancel rid st).2
  | OpDelete rid => ContextRegistry.delete rid st
  | OpCleanup now => ContextRegistry.cleanupExpired now st
  end.

Definition runOps (ops : list RegistryOp) (st : Store) : Store :=
  foldl applyOp st ops.

End RegistryRuns.

Import RegistryRuns.

Lemma applyOp_wf op st : store_wf st → store_wf (applyOp st op).
Proof.
  intros H. destruct op; unfold applyOp.
  - by apply create_wf.
  - by apply cancel_wf.
  - by apply delete_wf.
  - by apply cleanupExpired_wf.
Qed.

Lemma create_keeps_canceled rid sid tok now st r :
  isCanceledRef r st = true →
  isCanceledRef r (ContextRegistry.create rid sid tok now st).2 = true.
Proof.
  unfold isCanceledRef, ContextRegistry.create. simpl. intros H.
  destruct (decide (fresh (dom (tokens st)) = r)) as [<-|Hne].
  - by rewrite fresh_token_unused in H.
  - by rewrite lookup_insert_ne.
Qed.

Lemma applyOp_keeps_canceled op st r :
  isCanceledRef r st = true → isCanceledRef r (applyOp st op) = true.
Proof.
  destruct op; unfold applyOp; intros H.
  - by apply create_keeps_canceled.
  - unfold ContextRegistry.cancel. destruct (contexts st !! rid); [|done].
    simpl. by apply cancelRef_monotone.
  - done.
  - done.
Qed.

(** Whatever operations ran, every registered context refers to a live token,
    so that [cancel] on a registered id always reaches a token. *)
Theorem registry_runs_keep_tokens_allocated (ops : list RegistryOp) (rid : RequestId) :
  let st := runOps ops emptyStore in
  match ContextRegistry.get rid st with
  | Some context =>
      is_Some (tokens st !! cancellationToken context)
      ∧ (ContextRegistry.cancel rid st).1 = true
      ∧ isCanceledRef (cancellationToken context) (ContextRegistry.cancel rid st).2 = true
  | None => (ContextRegistry.cancel rid st).1 = false
  end.
Proof.
  cbv zeta.
  assert (∀ st, store_wf st → store_wf (runOps ops st)) as Hwf.
  { unfold runOps. induction ops as [|op ops IH]; intros st H; simpl; [done|].
    by apply IH, applyOp_wf. }
  pose proof (Hwf _ emptyStore_wf) as H. unfold ContextRegistry.get.
  destruct (contexts (runOps ops emptyStore) !! rid) as [c|] eqn:Hc.
  - pose proof (H _ _ Hc) as Halloc. split; [done|].
    unfold ContextRegistry.cancel. rewrite Hc. simpl. split; [done|].
    by apply cancelRef_isCanceled.
  - unfold ContextRegistry.cancel. by rewrite Hc.
Qed.

(** Cancellation is permanent under the registry's operations: a token that
    reports canceled still does after any further creates, cancels, deletes
    and sweeps, also when its context is gone. *)
Theorem canceled_stays_canceled (ops : list RegistryOp) (st : Store) (r : TokenRef) :
  isCanceledRef r st = true → isCanceledRef r (runOps ops st) = true.
Proof.
  unfold runOps. revert st. induction ops as [|op ops IH]; intros st H; simpl; [done|].
  by apply IH, applyOp_keeps_canceled.
Qed.

Lemma canceled_stays_canceled_witness :
  let st := (ContextRegistry.cancel (IdNum 7)
               (ContextRegistry.create (IdNum 7) None None 1000 emptyStore).2).2 in
  isCanceledRef 1%positive st = true
  ∧ isCanceledRef 1%positive
      (runOps [OpDelete (IdNum 7); OpCreate (IdNum 7) None None 2000;
               OpCleanup 700000; OpCancel (IdNum 8)] st) = true.
Proof.
  intros st. split; [reflexivity|].
  exact (canceled_stays_canceled
           [OpDelete (IdNum 7); OpCreate (IdNum 7) None None 2000;
            OpCleanup 700000; OpCancel (IdNum 8)] st 1%positive eq_refl).
Defined.

Lemma cancel_registered (rid : RequestId) (st : Store) (context : RequestContext) :
  contexts st !! rid = Some context →
  ContextRegistry.cancel rid st = (true, cancelRef (cancellationToken context) st).
Proof. intros H. unfold ContextRegistry.cancel. by rewrite H. Qed.

Lemma cancelRef_other (r r' : TokenRef) (st : Store) :
  r ≠ r' → tokens (cancelRef r st) !! r' = tokens st !! r'.
Proof.
  intros Hne. unfold cancelRef. destruct (tokens st !! r) as [t|]; [|done].
  destruct (tokenCancel t) as [t' fired]. simpl. by rewrite lookup_insert_ne.
Qed.

(** [create] on an id that is registered replaces the context (the last write
    wins): the new context has a token of its own, and from then on
    [cancel] reaches the new token only; the token of the replaced context is
    left as it was. *)
Theorem create_again_replaces_context (rid : RequestId)
    (sid1 tok1 sid2 tok2 : option string) (now1 now2 : Z) (st : Store) :
  let first := ContextRegistry.create rid sid1 tok1 now1 st in
  let second := ContextRegistry.create rid sid2 tok2 now2 first.2 in
  let canceled := ContextRegistry.cancel rid second.2 in
  ContextRegistry.get rid second.2 = Some second.1
  ∧ cancellationToken second.1 ≠ cancellationToken first.1
  ∧ canceled.1 = true
  ∧ isCanceledRef (cancellationToken second.1) canceled.2 = true
  ∧ isCanceledRef (cancellationToken first.1) canceled.2 = false
  ∧ tokens canceled.2 !! cancellationToken first.1 = Some freshToken.
Proof.
  cbv zeta.
  set (first := ContextRegistry.create rid sid1 tok1 now1 st).
  set (second := ContextRegistry.create rid sid2 tok2 now2 first.2).
  assert (tokens first.2 !! cancellationToken first.1 = Some freshToken) as H1.
  { unfold first, ContextRegistry.create. simpl. apply lookup_insert_eq. }
  assert (cancellationToken second.1 = fresh (dom (tokens first.2))) as H2 by done.
  assert (cancellationToken second.1 ≠ cancellationToken first.1) as Hne.
  { rewrite H2. intros E. pose proof (fresh_token_unused first.2) as Hf.
    rewrite E, H1 in Hf. discriminate. }
  assert (contexts second.2 !! rid = Some second.1) as Hget.
  { unfold second, ContextRegistry.create. simpl. apply lookup_insert_eq. }
  assert (tokens second.2 !! cancellationToken second.1 = Some freshToken) as H3.
  { unfold second, ContextRegistry.create. simpl. apply lookup_insert_eq. }
  assert (tokens second.2 !! cancellationToken first.1 = Some freshToken) as H4.
  { unfold second, ContextRegistry.create. simpl.
    rewrite lookup_insert_ne; [exact H1|]. intros E. apply Hne. by rewrite H2. }
  split; [exact Hget|]. split; [exact Hne|].
  rewrite (cancel_registered rid second.2 second.1 Hget). cbn [fst snd].
  split; [done|].
  split. { apply cancelRef_isCanceled. exists freshToken. exact H3. }
  assert (tokens (cancelRef (cancellationToken second.1) second.2)
            !! cancellationToken first.1 = Some freshToken) as H5.
  { rewrite cancelRef_other by exact Hne. exact H4. }
  split; [|exact H5]. unfold isCanceledRef. by rewrite H5.
Qed.

(** Sweeping at one time and then at another leaves what one sweep at the
    later of the two times leaves; a second sweep at the same time changes
    nothing. *)
Theorem cleanupExpired_twice (now1 now2 : Z) (st : Store) :
  ContextRegistry.cleanupExpired now2 (ContextRegistry.cleanupExpired now1 st)
  = ContextRegistry.cleanupExpired (Z.max now1 now2) st
  ∧ ContextRegistry.cleanupExpired now1 (ContextRegistry.cleanupExpired now1 st)
    = ContextRegistry.cleanupExpired now1 st.
Proof.
  assert (∀ a b,
    ContextRegistry.cleanupExpired b (ContextRegistry.cleanupExpired a st)
    = ContextRegistry.cleanupExpired (Z.max a b) st) as H.
  { intros a b.
    assert (contexts (ContextRegistry.cleanupExpired b
                        (ContextRegistry.cleanupExpired a st))
            = contexts (ContextRegistry.cleanupExpired (Z.max a b) st)) as Hc.
    { apply map_eq. intros rid. rewrite !cleanupExpired_lookup.
      destruct (contexts st !! rid) as [c|]; [|done].
      unfold ContextRegistry.maxAge.
      repeat (case_decide; simpl; try done); lia. }
    unfold ContextRegistry.cleanupExpired in *. simpl in *. by rewrite Hc. }
  split; [apply H|]. rewrite H. by rewrite Z.max_id.
Qed.

(** A request whose context has been swept can no longer be cancelled:
    [cancel] returns [false] and signals nothing. *)
Theorem swept_request_cannot_be_cancelled (now : Z) (st : Store) (rid : RequestId)
    (context : RequestContext) :
  ContextRegistry.get rid st = Some context →
  (now - timestamp context > 10 * 60 * 1000)%Z →
  let swept := ContextRegistry.cleanupExpired now st in
  ContextRegistry.cancel rid swept = (false, swept)
  ∧ isCanceledRef (cancellationToken context) swept
    = isCanceledRef (cancellationToken context) st.
Proof.
  intros Hget Hold. cbv zeta. unfold ContextRegistry.cancel.
  rewrite cleanupExpired_lookup. unfold ContextRegistry.get in Hget. rewrite Hget.
  rewrite decide_True by (unfold ContextRegistry.maxAge; lia). done.
Qed.

Lemma swept_request_cannot_be_cancelled_witness :
  let st := (ContextRegistry.create (IdStr "req-1") None None 1000 emptyStore).2 in
  let context := (ContextRegistry.create (IdStr "req-1") None None 1000 emptyStore).1 in
  ContextRegistry.get (IdStr "req-1") st = Some context
  ∧ (601001 - timestamp context > 10 * 60 * 1000)%Z
  ∧ (ContextRegistry.cancel (IdStr "req-1")
       (ContextRegistry.cleanupExpired 601001 st)).1 = false.
Proof.
  intros st context.
  assert (601001 - timestamp context > 10 * 60 * 1000)%Z as Hold by (simpl; lia).
  split; [reflexivity|]. split; [exact Hold|].
  exact (f_equal fst (proj1 (swept_request_cannot_be_cancelled 601001 st
                               (IdStr "req-1") context eq_refl Hold))).
Defined.

(** ** The wrapped handler and the tools *)

(** What the wrapped handler leaves of the registry, however the tool
    settled: the entries it found, less the one of its own request id; with
    no request id, or a falsy one, the entries it found. *)
Theorem wrappedHandler_registry_effect
    (handler : json → option RequestContext → ToolRun) (args : json)
    (extra : option Extra) (now : Z) (st : Store) :
  contexts (wrappedHandler handler args extra now st).2 =
  match extra ≫= extraRequestId with
  | Some rid => if truthy_id rid then delete rid (contexts st) else contexts st
  | None => contexts st
  end.
Proof.
  rewrite wrappedHandler_store.
  destruct (extra ≫= extraRequestId) as [rid|]; simpl; [|done].
  destruct (truthy_id rid) eqn:Ht; simpl; [|done].
  unfold ContextRegistry.get.
  destruct (contexts st !! rid) as [c|]; simpl; [done|].
  apply delete_insert_eq.
Qed.

Lemma registered_context_lifetime_witness :
  let request := {| postSessionIdHeader := None;
                    postBody := Some (callGenerate (JStr "req-9"));
                    replicateAuth := passed |} in
  let st1 := registry (registerRequestContext request None 1000 initialNodeState) in
  let extra := Some {| extraRequestId := Some (IdStr "req-9") |} in
  contextRequestId (postBody request) = Some (IdStr "req-9")
  ∧ ∃ context,
      ContextRegistry.get (IdStr "req-9") st1 = Some context
      ∧ replicateToken context = replicateAuth request ≫= authReplicateToken
      ∧ acquireContext (Some (IdStr "req-9")) 1001 st1 = (context, st1)
      ∧ (wrappedHandler generate (JObj []) extra 1001 st1).1
        = generate (JObj []) (Some context)
      ∧ ContextRegistry.get (IdStr "req-9")
          (wrappedHandler generate (JObj []) extra 1001 st1).2 = None.
Proof.
  intros request st1 extra. split; [reflexivity|].
  exact (registered_context_lifetime generate request None (JObj []) 1000 1001
           initialNodeState (IdStr "req-9") eq_refl).
Defined.

Section Tools_more.

Context {Seconds Model : Type}.
Variable nonZero : Seconds → bool.
Variable toFixed1 : Seconds → string.
Variable describeModel : Model → string.
Variable GenerateImageInputSchema : json → SafeParseResult GenerateImageInput.
Variable SearchModelsInputSchema : json → SafeParseResult SearchModelsInput.
Variable runPrediction :
  string → list (string * json) → string → Outcome (PredictionResult Seconds).
Variable searchModels : string → string → Outcome (list Model).

(** The handler of a tool, with the collaborators of this section. *)
Definition tool (name : ToolName) : json → option RequestContext → ToolRun :=
  toolHandler nonZero toFixed1 describeModel GenerateImageInputSchema
              SearchModelsInputSchema runPrediction searchModels name.

(** The API token a call of the service carries. *)
Definition callToken (call : UpstreamCall) : string :=
  match call with
  | RunPrediction _ _ apiToken => apiToken
  | SearchModels _ apiToken => apiToken
  end.

(** Closes a case of a handler: the run is the one the case returns. *)
Ltac settle_run :=
  eexists _, _, _; (split; [reflexivity|]); simpl;
  repeat split; auto; try (by repeat constructor); try discriminate.

(** Both handlers return on every path -- also when the service throws --
    with one text block; they call the service at most once, with the token
    of their context; and a result without [isError] comes only after a call
    of the service. *)
Theorem tool_handlers_always_return (name : ToolName) (args : json)
    (context : option RequestContext) :
  ∃ isError text calls,
    tool name args context
    = {| settled := Returned {| isError := isError; content := [TextContent text] |};
         upstreamCalls := calls |}
    ∧ (length calls ≤ 1)%nat
    ∧ Forall (λ call, Some (callToken call) = context ≫= replicateToken) calls
    ∧ (isError = None ∨ isError = Some true)
    ∧ (isError = None → calls ≠ []).
Proof.
  unfold tool, toolHandler. destruct name.
  - unfold searchModelsHandler.
    destruct (SearchModelsInputSchema args) as [data|errors]; [|settle_run].
    destruct (context ≫= replicateToken) as [apiToken|] eqn:Htok; simpl;
      [|settle_run].
    destruct (String.eqb apiToken "") eqn:He; simpl; [settle_run|].
    destruct (searchModels (query data) apiToken) as [[|m models]|errorMsg];
      settle_run.
  - unfold generateImageHandler.
    destruct (GenerateImageInputSchema args) as [data|errors]; [|settle_run].
    destruct (context ≫= replicateToken) as [apiToken|] eqn:Htok; simpl;
      [|settle_run].
    destruct (String.eqb apiToken "") eqn:He; simpl; [settle_run|].
    destruct (negb (truthy_opt (prop "prompt" (input data)))
              && negb (truthy_opt (prop "image" (input data)))); [settle_run|].
    destruct (runPrediction (model data) (input data) apiToken) as [p|errorMsg];
      [destruct (predictionStatus p)|]; settle_run.
Qed.

Lemma tool_calls_need_token (name : ToolName) (args : json)
    (context : option RequestContext) :
  upstreamCalls (tool name args context) ≠ [] →
  truthy_str (context ≫= replicateToken) = true.
Proof.
  unfold tool, toolHandler. destruct name.
  - unfold searchModelsHandler.
    destruct (SearchModelsInputSchema args); [|done].
    destruct (truthy_str (context ≫= replicateToken)); done.
  - unfold generateImageHandler.
    destruct (GenerateImageInputSchema args); [|done].
    destruct (truthy_str (context ≫= replicateToken)); done.
Qed.

(** A tool called through the wrapped handler reaches the Replicate service
    only when the registry already holds, under the (truthy) request id of the
    call, a context that carries a Replicate token. *)
Theorem upstream_needs_registered_token (name : ToolName) (args : json)
    (extra : option Extra) (now : Z) (st : Store) :
  upstreamCalls (wrappedHandler (tool name) args extra now st).1 ≠ [] →
  ∃ rid context,
    extra ≫= extraRequestId = Some rid
    ∧ truthy_id rid = true
    ∧ ContextRegistry.get rid st = Some context
    ∧ truthy_str (replicateToken context) = true.
Proof.
  rewrite wrappedHandler_run. intros H%tool_calls_need_token. revert H.
  unfold acquireContext.
  destruct (extra ≫= extraRequestId) as [rid|]; simpl; [|done].
  destruct (truthy_id rid) eqn:Ht; simpl; [|done].
  destruct (ContextRegistry.get rid st) as [c|] eqn:Hc; simpl; [|done].
  intros H. by exists rid, c.
Qed.

End Tools_more.

Lemma upstream_needs_registered_token_witness :
  let request := {| postSessionIdHeader := None;
                    postBody := Some (callGenerate (JNum 1));
                    replicateAuth := passed |} in
  let st1 := registry (registerRequestContext request None 1000 initialNodeState) in
  let extra := Some {| extraRequestId := Some (IdNum 1) |} in
  let args := generateArgs [("prompt", JStr "x")] in
  upstreamCalls (wrappedHandler (sampleTool generate_image) args extra 1001 st1).1 ≠ []
  ∧ ∃ rid context,
      extra ≫= extraRequestId = Some rid
      ∧ truthy_id rid = true
      ∧ ContextRegistry.get rid st1 = Some context
      ∧ truthy_str (replicateToken context) = true.
Proof.
  intros request st1 extra args.
  assert (upstreamCalls
            (wrappedHandler (sampleTool generate_image) args extra 1001 st1).1 ≠ [])
    as Hcalls by (vm_compute; discriminate).
  split; [exact Hcalls|].
  exact (upstream_needs_registered_token (λ t, negb (Nat.eqb t 0)) tenths
           (λ _ : unit, "") sampleGenerateSchema sampleSearchSchema sampleRun
           sampleSearch generate_image args extra 1001 st1 Hcalls).
Defined.

(** ** The other routes of [http/routes/mcp.ts], and POST in two steps *)

Inductive HttpMethod : Type := GET | POST | DELETE.

Definition noSessionResponse : HttpResponse :=
  jsonResponse
    (RpcError {| code := -32000; message := "Method not allowed - no session" |} JNull)
    (Some 405%Z).

(** [c.text('Invalid session', 404)]. *)
Definition invalidSessionResponse : HttpResponse :=
  {| status := 404; body := TextBody "Invalid session"; mcpSessionIdHeader := None |}.

(** What POST does before it turns to the SDK: the stale-session answer, or
    the transport to use and the state with the transport constructed (when
    there was none) and the request context registered. *)
Definition postSetup (request : PostRequest) (uuid : string) (now : Z) (st : NodeState)
  : HttpResponse + (TransportId * NodeState) :=
  let sessionIdHeader := postSessionIdHeader request in
  let body := postBody request in
  let initialize := isInitialize body in
  let plannedSid :=
    if initialize
    then Some (if truthy_str sessionIdHeader then default "" sessionIdHeader else uuid)
    else None in
  let transport :=
    if truthy_str sessionIdHeader
    then sessionIdHeader ≫= (λ sid, transports st !! sid)
    else None in
  if truthy_str sessionIdHeader && negb (bool_decide (is_Some transport))
     && negb initialize
  then inl (staleSessionResponse body)
  else
    let '(transport, st) :=
      match transport with
      | Some t => (t, st)
      | None =>
          (length (constructed st),
           {| registry := registry st; transports := transports st;
              constructed :=
                constructed st ++
                [{| sessionIdGenerator := plannedSid;
                    onsessioninitialized := initialize |}];
              connectedTransports := connectedTransports st;
              connects := connects st |})
      end in
    inr (transport, registerRequestContext request plannedSid now st).

Section NodeRoutes_more.

Variable serverConnect : TransportId → NodeState → Outcome unit.

(** [transport.handleRequest(req, res, body?)] of the MCP SDK, by HTTP
    method. *)
Variable transportHandle :
  HttpMethod → TransportId → option json → NodeState →
  Outcome HttpResponse * NodeState.

(** [await ensureConnected(transport); await transport.handleRequest(...)]
    inside the [try] of a route, with its [catch]. *)
Definition connectAndHandle (method : HttpMethod) (transport : TransportId)
    (body : option json) (st : NodeState) : Outcome HttpResponse * NodeState :=
  match ensureConnected serverConnect transport st with
  | (Threw e, st) => (Threw e, st)
  | (Returned _, st) => transportHandle method transport body st
  end.

(** [app.get('/', ...)]: the server-to-client stream of a session. *)
Definition getStream (sessionIdHeader : option string) (st : NodeState)
  : HttpResponse * NodeState :=
  if negb (truthy_str sessionIdHeader) then (noSessionResponse, st)
  else
    match sessionIdHeader ≫= (λ sid, transports st !! sid) with
    | None => (invalidSessionResponse, st)
    | Some transport =>
        match connectAndHandle GET transport None st with
        | (Threw _, st) => (internalErrorResponse, st)
        | (Returned response, st) => (response, st)
        end
    end.

(** [app.delete('/', ...)]: the end of a session.  [transport.close()] acts
    on the transport object, of which the state keeps nothing. *)
Definition deleteSession (sessionIdHeader : option string) (st : NodeState)
  : HttpResponse * NodeState :=
  if negb (truthy_str sessionIdHeader) then (noSessionResponse, st)
  else
    match sessionIdHeader ≫= (λ sid, transports st !! sid) with
    | None => (invalidSessionResponse, st)
    | Some transport =>
        match connectAndHandle DELETE transport None st with
        | (Threw _, st) => (internalErrorResponse, st)
        | (Returned response, st) =>
            (response,
             {| registry := registry st;
                transports := delete (default "" sessionIdHeader) (transports st);
                constructed := constructed st;
                connectedTransports := connectedTransports st;
                connects := connects st |})
        end
    end.

(** POST is its setup followed by the connect-and-handle step. *)
Lemma post_after_setup (request : PostRequest) (uuid : string) (now : Z)
    (st : NodeState) :
  post serverConnect (transportHandle POST) request uuid now st =
  match postSetup request uuid now st with
  | inl response => (response, st)
  | inr (transport, st1) =>
      match connectAndHandle POST transport (postBody request) st1 with
      | (Threw _, st2) => (internalErrorResponse, st2)
      | (Returned response, st2) => (response, st2)
      end
  end.
Proof.
  unfold post, postSetup, connectAndHandle.
  destruct (_ && _ && _); [done|].
  destruct (if truthy_str (postSessionIdHeader request) then _ else _) as [t|];
    simpl.
  - destruct (ensureConnected serverConnect t _) as [[[]|e] st1]; [|done].
    by destruct (transportHandle POST t (postBody request) st1) as [[r|e] st2].
  - destruct (ensureConnected serverConnect _ _) as [[[]|e] st1]; [|done].
    by destruct (transportHandle POST _ (postBody request) st1) as [[r|e] st2].
Qed.

End NodeRoutes_more.

Section NodeRoutes_facts.

Variable serverConnect : TransportId → NodeState → Outcome unit.
Variable transportHandle :
  HttpMethod → TransportId → option json → NodeState →
  Outcome HttpResponse * NodeState.

(** The live transport a session-id header names, if any; an empty header
    names none. *)
Definition liveTransport (sessionIdHeader : option string) (st : NodeState)
  : option TransportId :=
  if truthy_str sessionIdHeader
  then sessionIdHeader ≫= (λ sid, transports st !! sid)
  else None.

(** The session id an [initialize] call plans: the header when it is not
    empty, the new UUID otherwise. *)
Definition plannedSession (sessionIdHeader : option string) (uuid : string) : string :=
  if truthy_str sessionIdHeader then default "" sessionIdHeader else uuid.

Lemma registerRequestContext_frame request plannedSid now st :
  transports (registerRequestContext request plannedSid now st) = transports st
  ∧ constructed (registerRequestContext request plannedSid now st) = constructed st
  ∧ connectedTransports (registerRequestContext request plannedSid now st)
    = connectedTransports st
  ∧ connects (registerRequestContext request plannedSid now st) = connects st.
Proof.
  unfold registerRequestContext. by destruct (contextRequestId (postBody request)).
Qed.

Lemma registerRequestContext_lookup request plannedSid now st rid :
  contextRequestId (postBody request) = Some rid →
  ContextRegistry.get rid (registry (registerRequestContext request plannedSid now st))
  = Some {| sessionId := plannedSid;
            cancellationToken := fresh (dom (tokens (registry st)));
            requestId := Some rid;
            timestamp := now;
            replicateToken := replicateAuth request ≫= authReplicateToken |}.
Proof.
  intros H. unfold registerRequestContext. rewrite H.
  unfold ContextRegistry.get. simpl. apply lookup_insert_eq.
Qed.

(** GET and DELETE for a session the map does not hold change nothing: with
    no session id (or an empty one) the answer is HTTP 405 with the JSON-RPC
    error -32000, with an unknown one it is HTTP 404, "Invalid session". *)
Theorem session_routes_refuse_unknown_session (sessionIdHeader : option string)
    (st : NodeState) :
  liveTransport sessionIdHeader st = None →
  let answer :=
    if truthy_str sessionIdHeader
    then {| status := 404; body := TextBody "Invalid session";
            mcpSessionIdHeader := None |}
    else {| status := 405;
            body := JsonRpcBody
                      (RpcError {| code := -32000;
                                   message := "Method not allowed - no session" |}
                                JNull);
            mcpSessionIdHeader := None |} in
  getStream serverConnect transportHandle sessionIdHeader st = (answer, st)
  ∧ deleteSession serverConnect transportHandle sessionIdHeader st = (answer, st).
Proof.
  unfold liveTransport, getStream, deleteSession. intros H. cbv zeta.
  destruct (truthy_str sessionIdHeader); simpl; [|done]. by rewrite H.
Qed.

(** A DELETE that the SDK serves removes the session from the map, whatever
    the SDK did to the map meanwhile; a later POST with that session id, other
    than [initialize], is then turned away as a stale session. *)
Theorem deleted_session_is_stale (sid : string) (transport : TransportId)
    (st : NodeState) (response : HttpResponse) (request : PostRequest)
    (uuid : string) (now : Z) :
  sid ≠ "" →
  transports st !! sid = Some transport →
  (connectAndHandle serverConnect transportHandle DELETE transport None st).1
  = Returned response →
  postSessionIdHeader request = Some sid →
  isInitialize (postBody request) = false →
  let deleted := deleteSession serverConnect transportHandle (Some sid) st in
  deleted.1 = response
  ∧ transports deleted.2
    = delete sid (transports
        (connectAndHandle serverConnect transportHandle DELETE transport None st).2)
  ∧ post serverConnect (transportHandle POST) request uuid now deleted.2
    = (staleSessionResponse (postBody request), deleted.2).
Proof.
  intros Hne Hlive Hok Hh Hinit. cbv zeta.
  assert (deleteSession serverConnect transportHandle (Some sid) st
          = (response,
             let st2 := (connectAndHandle serverConnect transportHandle DELETE
                           transport None st).2 in
             {| registry := registry st2;
                transports := delete sid (transports st2);
                constructed := constructed st2;
                connectedTransports := connectedTransports st2;
                connects := connects st2 |})) as Hd.
  { unfold deleteSession. simpl. apply String.eqb_neq in Hne. rewrite Hne. simpl.
    rewrite Hlive.
    destruct (connectAndHandle _ _ DELETE transport None st) as [[r|e] st2];
      simpl in *; [by injection Hok as ->|done]. }
  rewrite Hd. cbn [fst snd]. split; [done|]. split; [done|].
  rewrite post_after_setup. unfold postSetup. rewrite Hh, Hinit. cbv zeta. simpl.
  apply String.eqb_neq in Hne. rewrite Hne. simpl.
  by rewrite lookup_delete_eq.
Qed.

(** What POST sets up for an [initialize] call.  With no live transport under
    the header, the route constructs one whose session-id generator yields the
    planned id (the header when given, a new UUID otherwise) and which reports
    the session once initialised; the route itself adds nothing to the session
    map.  With a live transport under the header, it reuses that transport and
    constructs none.  In both cases a context registered for the call carries
    the planned id. *)
Theorem initialize_plans_session (request : PostRequest) (uuid : string) (now : Z)
    (st : NodeState) :
  isInitialize (postBody request) = true →
  let planned := plannedSession (postSessionIdHeader request) uuid in
  ∃ transport st1,
    postSetup request uuid now st = inr (transport, st1)
    ∧ transports st1 = transports st
    ∧ match liveTransport (postSessionIdHeader request) st with
      | Some live => transport = live ∧ constructed st1 = constructed st
      | None =>
          transport = length (constructed st)
          ∧ constructed st1 =
            constructed st ++ [{| sessionIdGenerator := Some planned;
                                  onsessioninitialized := true |}]
      end
    ∧ (∀ rid, contextRequestId (postBody request) = Some rid →
              sessionId <$> ContextRegistry.get rid (registry st1)
              = Some (Some planned)).
Proof.
  intros Hinit. cbv zeta. unfold postSetup, liveTransport, plannedSession.
  rewrite Hinit. rewrite andb_false_r. cbv zeta.
  set (live := if truthy_str (postSessionIdHeader request) then _ else _).
  destruct live as [t|].
  - eexists _, _. split; [reflexivity|].
    destruct (registerRequestContext_frame request
                (Some (plannedSession (postSessionIdHeader request) uuid)) now st)
      as (H1 & H2 & _).
    unfold plannedSession in *. rewrite H1, H2. repeat split; try done.
    intros rid Hrid. by rewrite (registerRequestContext_lookup _ _ _ _ _ Hrid).
  - eexists _, _. split; [reflexivity|].
    set (built := {| registry := registry st; transports := transports st;
                     constructed := _; connectedTransports := connectedTransports st;
                     connects := connects st |}).
    destruct (registerRequestContext_frame request
                (Some (plannedSession (postSessionIdHeader request) uuid)) now built)
      as (H1 & H2 & _).
    unfold plannedSession in *. rewrite H1, H2. repeat split; try done.
    intros rid Hrid. by rewrite (registerRequestContext_lookup _ _ _ _ _ Hrid).
Qed.

(** What POST sets up for any other call that is not turned away: it reuses
    the live transport of the session or, with no session id, constructs a
    transport without session-id generator; and the context it registers has
    no session id -- also when the call came with one -- and carries the
    Replicate token of the auth context. *)
Theorem plain_post_context_has_no_session (request : PostRequest) (uuid : string)
    (now : Z) (st : NodeState) (transport : TransportId) (st1 : NodeState) :
  isInitialize (postBody request) = false →
  postSetup request uuid now st = inr (transport, st1) →
  match liveTransport (postSessionIdHeader request) st with
  | Some live => transport = live ∧ constructed st1 = constructed st
  | None =>
      truthy_str (postSessionIdHeader request) = false
      ∧ transport = length (constructed st)
      ∧ constructed st1 =
        constructed st ++ [{| sessionIdGenerator := None;
                              onsessioninitialized := false |}]
  end
  ∧ transports st1 = transports st
  ∧ (∀ rid, contextRequestId (postBody request) = Some rid →
      ∃ context,
        ContextRegistry.get rid (registry st1) = Some context
        ∧ sessionId context = None
        ∧ timestamp context = now
        ∧ replicateToken context = replicateAuth request ≫= authReplicateToken).
Proof.
  intros Hinit. unfold postSetup, liveTransport. rewrite Hinit. cbv zeta.
  rewrite andb_true_r.
  set (live := if truthy_str (postSessionIdHeader request) then _ else _).
  destruct live as [t|] eqn:Hlive; simpl.
  - destruct (truthy_str (postSessionIdHeader request)); simpl;
      [|by subst live].
    intros [= <- <-].
    destruct (registerRequestContext_frame request None now st) as (H1 & H2 & _).
    rewrite H1, H2. repeat split; try done.
    intros rid Hrid. eexists. split.
    { by apply registerRequestContext_lookup. } done.
  - destruct (truthy_str (postSessionIdHeader request)) eqn:Ht; simpl; [done|].
    intros [= <- <-].
    set (built := {| registry := registry st; transports := transports st;
                     constructed := _; connectedTransports := connectedTransports st;
                     connects := connects st |}).
    destruct (registerRequestContext_frame request None now built) as (H1 & H2 & _).
    rewrite H1, H2. repeat split; try done.
    intros rid Hrid. eexists. split.
    { by apply registerRequestContext_lookup. } done.
Qed.

(** When [server.connect] throws, POST answers HTTP 500 with the JSON-RPC
    error -32603 and id [null]; the transport's [handleRequest] is not
    reached, and the context registered for the request stays in the
    registry. *)
Theorem post_connect_failure_keeps_context (request : PostRequest) (uuid : string)
    (now : Z) (st : NodeState) (transport : TransportId) (st1 : NodeState)
    (e : string) :
  postSetup request uuid now st = inr (transport, st1) →
  transport ∉ connectedTransports st1 →
  serverConnect transport st1 = Threw e →
  let answered := post serverConnect (transportHandle POST) request uuid now st in
  answered.1
  = {| status := 500;
       body := JsonRpcBody
                 (RpcError {| code := -32603; message := "Internal server error" |}
                           JNull);
       mcpSessionIdHeader := None |}
  ∧ registry answered.2 = registry st1
  ∧ transports answered.2 = transports st
  ∧ connects answered.2 = connects st ++ [transport]
  ∧ (∀ rid, contextRequestId (postBody request) = Some rid →
            is_Some (ContextRegistry.get rid (registry answered.2))).
Proof.
  intros Hsetup Hnew Hthrow. cbv zeta. rewrite post_after_setup, Hsetup.
  unfold connectAndHandle, ensureConnected. rewrite decide_False by done.
  rewrite Hthrow. cbn [fst snd registry transports connects].
  assert (transports st1 = transports st ∧ connects st1 = connects st
          ∧ ∀ rid, contextRequestId (postBody request) = Some rid →
                   is_Some (ContextRegistry.get rid (registry st1))) as (H1 & H2 & H3).
  { revert Hsetup. unfold postSetup. destruct (_ && _ && _); [done|].
    destruct (if truthy_str (postSessionIdHeader request) then _ else _) as [t|];
      intros [= <- <-].
    - match goal with |- context [registerRequestContext ?r ?p ?n ?s] =>
        destruct (registerRequestContext_frame r p n s) as (F1 & _ & _ & F4) end.
      rewrite F1, F4. repeat split; try done.
      intros rid Hrid. erewrite registerRequestContext_lookup by done. eauto.
    - match goal with |- context [registerRequestContext ?r ?p ?n ?s] =>
        destruct (registerRequestContext_frame r p n s) as (F1 & _ & _ & F4) end.
      rewrite F1, F4. repeat split; try done.
      intros rid Hrid. erewrite registerRequestContext_lookup by done. eauto. }
  rewrite H1, H2. repeat split; done.
Qed.

End NodeRoutes_facts.

(** *** The routes on concrete requests *)

Module RouteExamples.

(** An SDK transport that serves every request with an empty 200. *)
Definition servedBySdk (method : HttpMethod) (transport : TransportId)
    (body : option json) (st : NodeState) : Outcome HttpResponse * NodeState :=
  (Returned {| status := 200; body := EmptyBody; mcpSessionIdHeader := None |}, st).

(** A server whose [connect] always throws. *)
Definition failingConnect (transport : TransportId) (st : NodeState) : Outcome unit :=
  Threw "connect failed".

(** A server with one live, connected session ["s-1"]. *)
Definition oneSession : NodeState :=
  {| registry := emptyStore; transports := {[ "s-1" := 0 ]};
     constructed := [{| sessionIdGenerator := Some "s-1";
                        onsessioninitialized := true |}];
     connectedTransports := {[ 0 ]}; connects := [0] |}.

(** [{"jsonrpc":"2.0","id":<id>,"method":"initialize"}] *)
Definition initializeCall (id : json) : json :=
  JObj [("jsonrpc", JStr "2.0"); ("id", id); ("method", JStr "initialize")].

End RouteExamples.

Import RouteExamples.

Lemma session_routes_refuse_unknown_session_witness :
  liveTransport (Some "gone") oneSession = None
  ∧ getStream reliableConnect servedBySdk (Some "gone") oneSession
    = ({| status := 404; body := TextBody "Invalid session";
          mcpSessionIdHeader := None |}, oneSession)
  ∧ deleteSession reliableConnect servedBySdk (Some "gone") oneSession
    = ({| status := 404; body := TextBody "Invalid session";
          mcpSessionIdHeader := None |}, oneSession).
Proof.
  split; [reflexivity|].
  exact (session_routes_refuse_unknown_session reliableConnect servedBySdk
           (Some "gone") oneSession eq_refl).
Defined.

Lemma deleted_session_is_stale_witness :
  let request := {| postSessionIdHeader := Some "s-1";
                    postBody := Some (listTools (JNum 4));
                    replicateAuth := passed |} in
  let deleted := deleteSession reliableConnect servedBySdk (Some "s-1") oneSession in
  ("s-1" ≠ "")
  ∧ transports oneSession !! "s-1" = Some 0
  ∧ (connectAndHandle reliableConnect servedBySdk DELETE 0 None oneSession).1
    = Returned {| status := 200; body := EmptyBody; mcpSessionIdHeader := None |}
  ∧ postSessionIdHeader request = Some "s-1"
  ∧ isInitialize (postBody request) = false
  ∧ deleted.1 = {| status := 200; body := EmptyBody; mcpSessionIdHeader := None |}
  ∧ transports deleted.2
    = delete "s-1" (transports
        (connectAndHandle reliableConnect servedBySdk DELETE 0 None oneSession).2)
  ∧ post reliableConnect (servedBySdk POST) request "uuid-1" 1000 deleted.2
    = (staleSessionResponse (postBody request), deleted.2).
Proof.
  intros request deleted.
  assert ("s-1" ≠ "") as Hne by discriminate.
  split; [exact Hne|]. split; [reflexivity|]. split; [reflexivity|].
  split; [reflexivity|]. split; [reflexivity|].
  exact (deleted_session_is_stale reliableConnect servedBySdk "s-1" 0 oneSession
           {| status := 200; body := EmptyBody; mcpSessionIdHeader := None |}
           request "uuid-1" 1000 Hne eq_refl eq_refl eq_refl eq_refl).
Defined.

Lemma initialize_plans_session_witness :
  let request := {| postSessionIdHeader := None;
                    postBody := Some (initializeCall (JNum 1));
                    replicateAuth := passed |} in
  isInitialize (postBody request) = true
  ∧ ∃ transport st1,
      postSetup request "uuid-1" 1000 oneSession = inr (transport, st1)
      ∧ transports st1 = transports oneSession
      ∧ (transport = 1
         ∧ constructed st1 =
           constructed oneSession ++ [{| sessionIdGenerator := Some "uuid-1";
                                         onsessioninitialized := true |}])
      ∧ (∀ rid, contextRequestId (postBody request) = Some rid →
                sessionId <$> ContextRegistry.get rid (registry st1)
                = Some (Some "uuid-1")).
Proof.
  intros request. split; [reflexivity|].
  exact (initialize_plans_session request "uuid-1" 1000 oneSession eq_refl).
Defined.

Lemma plain_post_context_has_no_session_witness :
  let request := {| postSessionIdHeader := Some "s-1";
                    postBody := Some (callGenerate (JNum 5));
                    replicateAuth := passed |} in
  let st1 := registerRequestContext request None 1000 oneSession in
  isInitialize (postBody request) = false
  ∧ postSetup request "uuid-1" 1000 oneSession = inr (0, st1)
  ∧ (0 = 0 ∧ constructed st1 = constructed oneSession)
  ∧ transports st1 = transports oneSession
  ∧ (∀ rid, contextRequestId (postBody request) = Some rid →
      ∃ context,
        ContextRegistry.get rid (registry st1) = Some context
        ∧ sessionId context = None
        ∧ timestamp context = 1000%Z
        ∧ replicateToken context = replicateAuth request ≫= authReplicateToken).
Proof.
  intros request st1. split; [reflexivity|]. split; [reflexivity|].
  exact (plain_post_context_has_no_session request "uuid-1" 1000 oneSession 0 st1
           eq_refl eq_refl).
Defined.

Lemma post_connect_failure_keeps_context_witness :
  let request := {| postSessionIdHeader := None;
                    postBody := Some (callGenerate (JNum 5));
                    replicateAuth := passed |} in
  let st1 :=
    registerRequestContext request None 1000
      {| registry := emptyStore; transports := ∅;
         constructed := [{| sessionIdGenerator := None;
                            onsessioninitialized := false |}];
         connectedTransports := ∅; connects := [] |} in
  let answered :=
    post failingConnect (servedBySdk POST) request "uuid-1" 1000 initialNodeState in
  postSetup request "uuid-1" 1000 initialNodeState = inr (0, st1)
  ∧ (0 ∉ connectedTransports st1)
  ∧ failingConnect 0 st1 = Threw "connect failed"
  ∧ status answered.1 = 500%Z
  ∧ is_Some (ContextRegistry.get (IdNum 5) (registry answered.2)).
Proof.
  intros request st1 answered.
  assert (0 ∉ connectedTransports st1) as Hnew.
  { change (0 ∉ (∅ : gset nat)). apply not_elem_of_empty. }
  split; [reflexivity|]. split; [exact Hnew|]. split; [reflexivity|].
  destruct (post_connect_failure_keeps_context failingConnect servedBySdk request
              "uuid-1" 1000 initialNodeState 0 st1 "connect failed"
              eq_refl Hnew eq_refl) as (H1 & _ & _ & _ & H5).
  split. { fold answered in H1. by rewrite H1. }
  apply H5. reflexivity.
Defined.

(** ** The Workers handler: the session id it answers with *)

Lemma trimEnd_empty (s : string) : trimEnd s = "" ↔ allSpaces s = true.
Proof.
  induction s as [|c r IH]; simpl; [done|].
  destruct (trimEnd r) as [|c' r'] eqn:Hr.
  - destruct (isSpace c); simpl.
    + split; [intros _; by apply IH | done].
    + split; [done | intros [=]].
  - split; [done|]. intros [_ Hs]%andb_true_iff. apply IH in Hs. discriminate.
Qed.

Lemma allSpaces_dropSpaces (s : string) :
  allSpaces (dropSpaces s) = allSpaces s.
Proof.
  induction s as [|c r IH]; simpl; [done|].
  destruct (isSpace c) eqn:Hc; simpl; [done|]. by rewrite Hc.
Qed.

Lemma allSpaces_trimEnd (s : string) :
  allSpaces (trimEnd s) = true → allSpaces s = true.
Proof.
  induction s as [|c r IH]; simpl; [done|].
  destruct (trimEnd r) as [|c' r'] eqn:Hr.
  - destruct (isSpace c) eqn:Hc; simpl.
    + intros _. by apply trimEnd_empty.
    + by rewrite Hc.
  - simpl. intros [Hc Hs]%andb_true_iff. rewrite Hc. simpl. by apply IH.
Qed.

Lemma trim_empty (s : string) : trim s = "" ↔ allSpaces s = true.
Proof. unfold trim. by rewrite trimEnd_empty, allSpaces_dropSpaces. Qed.

Section Workers_more.

Context {McpSessionState CancellationRegistry : Type}.
Variable emptyRegistry : CancellationRegistry.
Variable dispatchMcpMethod :
  option json → option json → McpDispatchContext → json →
  WorkerState McpSessionState CancellationRegistry →
  McpDispatchResult * WorkerState McpSessionState CancellationRegistry.
Variable handleMcpNotification :
  json → option json → McpDispatchContext →
  WorkerState McpSessionState CancellationRegistry →
  WorkerState McpSessionState CancellationRegistry.

(** The session a request belongs to: the one its header names, without the
    white space around it, or a new one when the header is missing or blank. *)
Definition sessionOf (request : WorkerRequest) (uuid : string) : string :=
  match sessionIdHeader request with
  | Some incoming => if allSpaces incoming then uuid else trim incoming
  | None => uuid
  end.

(** An authenticated request with an id is dispatched under the session of
    the request, with the server's Replicate token, and the answer names that
    session in its [Mcp-Session-Id] header; the session is blank only if the
    generated UUID is. *)
Theorem worker_answers_under_request_session (request : WorkerRequest)
    (config : Config) (uuid : string)
    (ws : WorkerState McpSessionState CancellationRegistry) (id : json) :
  validateApiKey (authHeaders request) config = true →
  carriedId (parsedBody request) = Some id →
  let sid := sessionOf request uuid in
  let body := default (JObj []) (parsedBody request) in
  let dispatched :=
    dispatchMcpMethod (member "method" body) (member "params" body)
      {| dcSessionId := sid; dcReplicateToken := REPLICATE_API_TOKEN config;
         dcTitle := MCP_TITLE config; dcVersion := MCP_VERSION config |}
      id (getCancellationRegistry emptyRegistry sid ws) in
  handleMcpRequest emptyRegistry dispatchMcpMethod handleMcpNotification
    request config uuid ws
  = (Returned
       {| status := 200;
          body := JsonRpcBody
                    match drError dispatched.1 with
                    | Some e => RpcError e id
                    | None => RpcResult (drResult dispatched.1) id
                    end;
          mcpSessionIdHeader := Some sid |},
     dispatched.2)
  ∧ (allSpaces sid = true → allSpaces uuid = true).
Proof.
  intros Hauth Hid. cbv zeta.
  assert (match sessionIdHeader request with
          | Some incoming => if String.eqb (trim incoming) "" then uuid else trim incoming
          | None => uuid
          end = sessionOf request uuid) as Hsid.
  { unfold sessionOf. destruct (sessionIdHeader request) as [h|]; [|done].
    destruct (allSpaces h) eqn:Hs.
    - apply trim_empty in Hs. by rewrite Hs.
    - destruct (String.eqb (trim h) "") eqn:He; [|done].
      apply String.eqb_eq, trim_empty in He. congruence. }
  split.
  - unfold handleMcpRequest. rewrite Hauth, Hsid. simpl.
    unfold carriedId in Hid.
    destruct (parsedBody request) as [[| | | |items|fields]|]; try done. simpl.
    destruct (prop "id" fields) as [v|] eqn:Hv; [|done].
    destruct v; try done; injection Hid as <-; simpl;
      by destruct (dispatchMcpMethod _ _ _ _ _) as [result ws'].
  - unfold sessionOf. destruct (sessionIdHeader request) as [h|]; [|done].
    destruct (allSpaces h) eqn:Hs; [done|].
    intros Ht. unfold trim in Ht.
    apply allSpaces_trimEnd in Ht. rewrite allSpaces_dropSpaces in Ht. congruence.
Qed.

End Workers_more.

Lemma worker_answers_under_request_session_witness :
  let request := {| authHeaders := withApiKey; sessionIdHeader := Some "  s-7 ";
                    parsedBody := Some (listTools (JNum 2)) |} in
  validateApiKey (authHeaders request) secured = true
  ∧ carriedId (parsedBody request) = Some (JNum 2)
  ∧ run request secured "uuid-1" idle
    = (Returned {| status := 200;
                   body := JsonRpcBody (RpcResult (Some (JObj [])) (JNum 2));
                   mcpSessionIdHeader := Some "s-7" |},
       {| sessionStateMap := ∅; cancellationRegistryMap := {[ "s-7" := tt ]} |}).
Proof.
  intros request. split; [reflexivity|]. split; [reflexivity|].
  exact (proj1 (worker_answers_under_request_session tt okDispatcher
                  quietNotifications request secured "uuid-1" idle (JNum 2)
                  eq_refl eq_refl)).
Defined.

(** ** Configuration ([shared/config/env.ts]) *)

Module Env.

Section parse.

(** [PORT] is a JavaScript number; [finiteNumber value] is [Number(value)]
    when [Number.isFinite] holds of it, and [port3000] is the literal 3000. *)
Context {Num : Type}.
Variable finiteNumber : option string → option Num.
Variable port3000 : Num.






End parse.

End Env.



(** ** The Replicate service ([services/api/replicate.service.ts]) *)

Module ReplicateService.

(** One entry of [response.results] of a model search. *)
Record RawModel : Type := mkRawModel {
  rawOwner : string;
  rawName : string;
  rawDescription : option string;  (* [None]: [null] or [undefined] *)
  rawRunCount : option Z;
}.

(** [latest_version?.openapi_schema?.components?.schemas?.Input] of a model. *)
Record RawInputSchema : Type := mkRawInputSchema {
  rawRequired : option (list string);
  rawProperties : option (list (string * json));
}.

(** [ModelInputSchema]; a property's description is the JSON object the
    OpenAPI schema holds for it. *)
Record ModelInputSchema : Type := mkModelInputSchema {
  required : list string;
  properties : list (string * json);
}.

(** [ModelSearchResult]. *)
Record ModelSearchResult : Type := mkModelSearchResult {
  owner : string;
  name : string;
  description : option string;
  run_count : Z;
  input_schema : option ModelInputSchema;
}.

(** The status of a prediction as the Replicate client reports it. *)
Inductive RawStatus : Type :=
| raw_starting | raw_processing | raw_succeeded | raw_failed | raw_canceled
| raw_aborted.

Definition tokenRequired : string :=
  "Replicate API token is required. Pass via X-Replicate-Token header or set REPLICATE_API_TOKEN env.".

Section service.

Context {Seconds Handle : Type}.

(** What [client.wait(prediction)] resolves to. *)
Record RawPrediction : Type := mkRawPrediction {
  rawId : string;
  rawStatus : RawStatus;
  rawOutput : option json;
  rawError : option json;
  rawMetrics : option (Metrics Seconds);
}.

(** The client of the [replicate] package, made for an API token:
    [client.models.search(query)] (its [results]), [client.models.get(owner,
    name)] (the input schema found in the model, if any),
    [client.predictions.create({ model, input })] and [client.wait]. *)
Variable modelsSearch : string → string → Outcome (list RawModel).
Variable modelsGet : string → string → string → Outcome (option RawInputSchema).
Variable predictionsCreate :
  string → string → list (string * json) → Outcome Handle.
Variable wait : string → Handle → Outcome RawPrediction.

(** [JSON.stringify] and [String], of the JavaScript runtime. *)
Variable stringify : json → string.
Variable toString : json → string.

(** The text of a value where a string is expected: a string is itself. *)
Definition textOf (v : json) : string :=
  match v with
  | JStr s => s
  | _ => toString v
  end.

(** The [map] callback of [searchModels]: one result with its input schema,
    or without it when the model cannot be fetched. *)
Definition enrich (apiToken : string) (m : RawModel) : ModelSearchResult :=
  match modelsGet apiToken (rawOwner m) (rawName m) with
  | Returned inputSchema =>
      {| owner := rawOwner m;
         name := rawName m;
         description := rawDescription m;
         run_count := default 0%Z (rawRunCount m);
         input_schema :=
           (λ s, {| required := default [] (rawRequired s);
                    properties := default [] (rawProperties s) |}) <$> inputSchema |}
  | Threw _ =>
      {| owner := rawOwner m;
         name := rawName m;
         description := rawDescription m;
         run_count := default 0%Z (rawRunCount m);
         input_schema := None |}
  end.

(** [searchModels(query, apiToken)]. *)
Definition searchModels (query apiToken : string) : Outcome (list ModelSearchResult) :=
  if String.eqb apiToken "" then Threw tokenRequired
  else
    match modelsSearch apiToken query with
    | Threw e => Threw e
    | Returned results => Returned (map (enrich apiToken) (firstn 5 results))
    end.

(** The status with ["aborted"] read as ["canceled"]. *)
Definition normalizedStatus (s : RawStatus) : PredictionStatus :=
  match s with
  | raw_canceled | raw_aborted => canceled
  | raw_starting => starting
  | raw_processing => processing
  | raw_succeeded => succeeded
  | raw_failed => failed
  end.

(** [runPrediction(modelId, input, apiToken)].  The elements of an output
    array are kept as they are by the code and turned into text where the
    handler prints them; here they are turned into text at once. *)
Definition runPrediction (modelId : string) (input : list (string * json))
    (apiToken : string) : Outcome (PredictionResult Seconds) :=
  if String.eqb apiToken "" then Threw tokenRequired
  else
    match predictionsCreate apiToken modelId input with
    | Threw e => Threw e
    | Returned prediction =>
        match wait apiToken prediction with
        | Threw e => Threw e
        | Returned result =>
            Returned
              {| predictionId := rawId result;
                 predictionStatus := normalizedStatus (rawStatus result);
                 output :=
                   match rawOutput result with
                   | Some (JArr items) => Some (map textOf items)
                   | Some v => if truthy v then Some [textOf v] else None
                   | None => None
                   end;
                 predictionError :=
                   match rawError result with
                   | Some v =>
                       if truthy v
                       then Some (match v with JStr s => s | _ => stringify v end)
                       else None
                   | None => None
                   end;
                 metrics := rawMetrics result |}
        end
    end.

End service.

End ReplicateService.

Import ReplicateService.

Arguments RawPrediction : clear implicits.

(** A search returns the first five results of the client's search, in its
    order and under its owners, names and descriptions; a model whose details
    cannot be fetched is still returned, without input schema.  The search
    fails only for an empty token or when the client's search itself fails. *)
Theorem searchModels_top_five
    (modelsSearch : string → string → Outcome (list RawModel))
    (modelsGet : string → string → string → Outcome (option RawInputSchema))
    (query apiToken : string) :
  match searchModels modelsSearch modelsGet query apiToken with
  | Returned models =>
      apiToken ≠ ""
      ∧ ∃ results,
          modelsSearch apiToken query = Returned results
          ∧ length models = Nat.min 5 (length results)
          ∧ map (λ m, (owner m, name m, description m)) models
            = map (λ r, (rawOwner r, rawName r, rawDescription r)) (firstn 5 results)
          ∧ Forall2 (λ m r,
                match modelsGet apiToken (rawOwner r) (rawName r) with
                | Returned (Some s) =>
                    input_schema m = Some {| required := default [] (rawRequired s);
                                             properties := default [] (rawProperties s) |}
                | _ => input_schema m = None
                end) models (firstn 5 results)
  | Threw e =>
      (apiToken = "" ∧ e = tokenRequired) ∨ modelsSearch apiToken query = Threw e
  end.
Proof.
  unfold searchModels. destruct (String.eqb apiToken "") eqn:He.
  { left. by apply String.eqb_eq in He. }
  apply String.eqb_neq in He.
  destruct (modelsSearch apiToken query) as [results|e]; [|by right].
  split; [done|]. exists results. split; [done|].
  split. { by rewrite length_map, length_firstn. }
  split.
  - induction (firstn 5 results) as [|r rs IH]; [done|]. simpl. rewrite IH.
    f_equal. unfold enrich. by destruct (modelsGet _ _ _).
  - induction (firstn 5 results) as [|r rs IH]; [constructor|]. simpl.
    constructor; [|exact IH]. unfold enrich.
    by destruct (modelsGet apiToken (rawOwner r) (rawName r)) as [[s|]|].
Qed.

Section generate_with_service.

Context {Seconds Handle : Type}.
Variable nonZero : Seconds → bool.
Variable toFixed1 : Seconds → string.
Variable GenerateImageInputSchema : json → SafeParseResult GenerateImageInput.
Variable predictionsCreate :
  string → string → list (string * json) → Outcome Handle.
Variable wait : string → Handle → Outcome (RawPrediction Seconds).
Variable stringify : json → string.
Variable toString : json → string.

(** [generate_image] on top of the service's [runPrediction]. *)
Definition generateImage : json → option RequestContext → ToolRun :=
  generateImageHandler nonZero toFixed1 GenerateImageInputSchema
    (runPrediction predictionsCreate wait stringify toString).

(** Once [generate_image] has handed a prediction to the client and the
    client has reported its end, the status decides the result: "canceled" and
    "aborted" both give the "Generation Cancelled" error, "failed" gives an
    error, and any other status gives a result without [isError].  The service
    was called once, with the model, the input and the token of the call. *)
Theorem prediction_status_decides_result (args : json)
    (context : option RequestContext) (data : GenerateImageInput)
    (apiToken : string) (prediction : Handle) (result : RawPrediction Seconds) :
  GenerateImageInputSchema args = ParseSuccess data →
  context ≫= replicateToken = Some apiToken →
  apiToken ≠ "" →
  truthy_opt (prop "prompt" (input data)) || truthy_opt (prop "image" (input data))
  = true →
  predictionsCreate apiToken (model data) (input data) = Returned prediction →
  wait apiToken prediction = Returned result →
  upstreamCalls (generateImage args context)
  = [RunPrediction (model data) (input data) apiToken]
  ∧ ∃ text,
      settled (generateImage args context)
      = Returned
          {| isError :=
               match rawStatus result with
               | raw_starting | raw_processing | raw_succeeded => None
               | raw_failed | raw_canceled | raw_aborted => Some true
               end;
             content := [TextContent text] |}
      ∧ match rawStatus result with
        | raw_canceled | raw_aborted =>
            text = lines ["## Generation Cancelled"; "";
                          "The prediction was cancelled before completion."]
        | _ => True
        end.
Proof.
  intros Hparse Htok Hne Hin Hcreate Hwait.
  unfold generateImage, generateImageHandler. rewrite Hparse, Htok.
  apply String.eqb_neq in Hne. simpl. rewrite Hne. simpl.
  replace (negb (truthy_opt (prop "prompt" (input data)))
           && negb (truthy_opt (prop "image" (input data)))) with false
    by (by destruct (truthy_opt (prop "prompt" (input data))),
                    (truthy_opt (prop "image" (input data)))).
  unfold runPrediction. rewrite Hne, Hcreate, Hwait. simpl.
  destruct (rawStatus result); simpl; (split; [done|]); eexists; split;
    try reflexivity; done.
Qed.

End generate_with_service.

Module ServiceExamples.

(** A client whose predictions are all aborted. *)
Definition abortingCreate (apiToken modelId : string) (input : list (string * json))
  : Outcome unit := Returned tt.

Definition abortingWait (apiToken : string) (prediction : unit)
  : Outcome (RawPrediction nat) :=
  Returned {| rawId := "p2"; rawStatus := raw_aborted; rawOutput := None;
              rawError := None; rawMetrics := None |}.

Definition plainText (v : json) : string := "".

End ServiceExamples.

Import ServiceExamples.

Lemma prediction_status_decides_result_witness :
  let args := generateArgs [("prompt", JStr "x")] in
  let data := {| model := "a/b"; input := [("prompt", JStr "x")] |} in
  let run := generateImage (λ t, negb (Nat.eqb t 0)) tenths sampleGenerateSchema
               abortingCreate abortingWait plainText plainText args withToken in
  sampleGenerateSchema args = ParseSuccess data
  ∧ withToken ≫= replicateToken = Some "r8_token"
  ∧ ("r8_token" ≠ "")
  ∧ truthy_opt (prop "prompt" (input data)) || truthy_opt (prop "image" (input data))
    = true
  ∧ abortingCreate "r8_token" (model data) (input data) = Returned tt
  ∧ abortingWait "r8_token" tt
    = Returned {| rawId := "p2"; rawStatus := raw_aborted; rawOutput := None;
                  rawError := None; rawMetrics := None |}
  ∧ upstreamCalls run = [RunPrediction "a/b" [("prompt", JStr "x")] "r8_token"]
  ∧ ∃ text,
      settled run = Returned {| isError := Some true; content := [TextContent text] |}
      ∧ text = lines ["## Generation Cancelled"; "";
                      "The prediction was cancelled before completion."].
Proof.
  intros args data run.
  assert ("r8_token" ≠ "") as Hne by discriminate.
  split; [reflexivity|]. split; [reflexivity|]. split; [exact Hne|].
  split; [reflexivity|]. split; [reflexivity|]. split; [reflexivity|].
  exact (prediction_status_decides_result (λ t, negb (Nat.eqb t 0)) tenths
           sampleGenerateSchema abortingCreate abortingWait plainText plainText
           args withToken data "r8_token" tt
           {| rawId := "p2"; rawStatus := raw_aborted; rawOutput := None;
              rawError := None; rawMetrics := None |}
           eq_refl eq_refl Hne eq_refl eq_refl eq_refl).
Defined.

(** ** The sweep timer ([startContextCleanup], [stopContextCleanup]) *)

Module Cleanup.

(** The timers of the process, as far as the module uses them: the handle in
    [cleanupIntervalId], the intervals that are set and not cleared, and the
    number of [setInterval] calls so far (each returns a new handle, which is
    truthy). *)
Record TimerState : Type := mkTimerState {
  cleanupIntervalId : option nat;
  activeIntervals : gset nat;
  intervalsSet : nat;
}.

(** The module before its last line has run. *)
Definition loaded : TimerState :=
  {| cleanupIntervalId := None; activeIntervals := ∅; intervalsSet := 0 |}.

Definition startContextCleanup (ts : TimerState) : TimerState :=
  match cleanupIntervalId ts with
  | Some _ => ts
  | None =>
      {| cleanupIntervalId := Some (intervalsSet ts);
         activeIntervals := {[ intervalsSet ts ]} ∪ activeIntervals ts;
         intervalsSet := S (intervalsSet ts) |}
  end.

Definition stopContextCleanup (ts : TimerState) : TimerState :=
  match cleanupIntervalId ts with
  | Some id =>
      {| cleanupIntervalId := None;
         activeIntervals := activeIntervals ts ∖ {[ id ]};
         intervalsSet := intervalsSet ts |}
  | None => ts
  end.

Inductive TimerCall : Type := Start | Stop.

Definition call (ts : TimerState) (c : TimerCall) : TimerState :=
  match c with
  | Start => startContextCleanup ts
  | Stop => stopContextCleanup ts
  end.

(** The module is loaded (which starts the sweep) and then [calls] are made. *)
Definition afterCalls (calls : list TimerCall) : TimerState :=
  foldl call (startContextCleanup loaded) calls.

End Cleanup.

(** Whatever calls of [startContextCleanup] and [stopContextCleanup] follow
    the loading of the module, the intervals that are running are exactly the
    one in [cleanupIntervalId], if any: never two sweeps at a time, a start
    while one runs sets no second interval, and after a stop none runs. *)
Theorem one_sweep_timer_at_most (calls : list Cleanup.TimerCall) :
  let ts := Cleanup.afterCalls calls in
  Cleanup.activeIntervals ts
  = match Cleanup.cleanupIntervalId ts with
    | Some id => {[ id ]}
    | None => ∅
    end
  ∧ Cleanup.activeIntervals (Cleanup.stopContextCleanup ts) = ∅
  ∧ Cleanup.startContextCleanup (Cleanup.startContextCleanup ts)
    = Cleanup.startContextCleanup ts.
Proof.
  cbv zeta.
  assert (∀ ts,
    Cleanup.activeIntervals ts
    = match Cleanup.cleanupIntervalId ts with Some id => {[ id ]} | None => ∅ end →
    Cleanup.activeIntervals (foldl Cleanup.call ts calls)
    = match Cleanup.cleanupIntervalId (foldl Cleanup.call ts calls) with
      | Some id => {[ id ]}
      | None => ∅
      end) as Hinv.
  { induction calls as [|c calls IH]; intros ts Hts; simpl; [done|].
    apply IH. destruct c; simpl.
    - unfold Cleanup.startContextCleanup.
      destruct (Cleanup.cleanupIntervalId ts) eqn:Hid; simpl.
      + by rewrite Hid.
      + rewrite Hts. apply union_empty_r_L.
    - unfold Cleanup.stopContextCleanup.
      destruct (Cleanup.cleanupIntervalId ts) eqn:Hid; simpl.
      + rewrite Hts. apply difference_diag_L.
      + by rewrite Hid. }
  assert (Cleanup.activeIntervals (Cleanup.afterCalls calls)
          = match Cleanup.cleanupIntervalId (Cleanup.afterCalls calls) with
            | Some id => {[ id ]}
            | None => ∅
            end) as H.
  { apply Hinv. simpl. apply union_empty_r_L. }
  split; [exact H|]. split.
  - unfold Cleanup.stopContextCleanup.
    destruct (Cleanup.cleanupIntervalId (Cleanup.afterCalls calls)) eqn:Hid; simpl.
    + rewrite H. apply difference_diag_L.
    + by rewrite H.
  - unfold Cleanup.startContextCleanup.
    destruct (Cleanup.cleanupIntervalId (Cleanup.afterCalls calls)) eqn:Hid; simpl.
    + by rewrite Hid.
    + done.
Qed.

(** ** The Node application ([http/app.ts]): the route behind the check *)

Section protected_route.

Variable serverConnect : TransportId → NodeState → Outcome unit.
Variable transportHandleRequest :
  TransportId → option json → NodeState → Outcome HttpResponse * NodeState.

(** A POST to [/mcp] through [buildHttpApp]: [replicateAuthMiddleware], then
    [requireAuth], then the route, which finds the auth context on the Hono
    context. *)
Definition protectedPost (h : AuthHeaders) (config : Config)
    (sessionIdHeader : option string) (body : option json)
    (uuid : string) (now : Z) (st : NodeState) : HttpResponse * NodeState :=
  match mcpAuthChain h config with
  | inl response => (response, st)
  | inr auth =>
      post serverConnect transportHandleRequest
        {| postSessionIdHeader := sessionIdHeader; postBody := body;
           replicateAuth := Some auth |} uuid now st
  end.

(** A POST that fails the API-key check is answered 401 and nothing of the
    state changes: no transport, no session, no request context.  For one
    that passes, the context the route registers carries the server's
    Replicate token, whatever headers the request has. *)
Theorem protected_post_uses_server_token (h : AuthHeaders) (config : Config)
    (sessionIdHeader : option string) (body : option json)
    (uuid : string) (now : Z) (st : NodeState) :
  if validateApiKey h config then
    let request := {| postSessionIdHeader := sessionIdHeader; postBody := body;
                      replicateAuth :=
                        Some {| authenticated := true;
                                authReplicateToken := REPLICATE_API_TOKEN config |} |} in
    protectedPost h config sessionIdHeader body uuid now st
    = post serverConnect transportHandleRequest request uuid now st
    ∧ match postSetup request uuid now st, contextRequestId body with
      | inr (_, st1), Some rid =>
          replicateToken <$> ContextRegistry.get rid (registry st1)
          = Some (REPLICATE_API_TOKEN config)
      | _, _ => True
      end
  else
    protectedPost h config sessionIdHeader body uuid now st
    = (unauthorizedResponse, st).
Proof.
  unfold protectedPost. rewrite mcpAuthChain_cases.
  destruct (validateApiKey h config); [|done].
  cbv zeta. split; [done|].
  set (request := {| postSessionIdHeader := sessionIdHeader; postBody := body;
                     replicateAuth := _ |}).
  destruct (postSetup request uuid now st) as [r|[t st1]] eqn:Hsetup; [done|].
  destruct (contextRequestId body) as [rid|] eqn:Hrid; [|done].
  revert Hsetup. unfold postSetup.
  destruct (_ && _ && _); [done|].
  destruct (if truthy_str (postSessionIdHeader request) then _ else _) as [t'|];
    intros [= <- <-];
    by rewrite (registerRequestContext_lookup request _ _ _ rid Hrid).
Qed.

End protected_route.

(** ** The bearer pattern and the rate-limit test on concrete texts *)

Lemma bearerMatch_sound_witness :
  bearerMatch "  bEARER   secret" = Some "secret"
  ∧ ∃ pre kw sp,
      "  bEARER   secret" = pre +:+ kw +:+ sp +:+ "secret"
      ∧ allSpaces pre = true ∧ sameLettersCI "Bearer" kw = true
      ∧ sp ≠ "" ∧ allSpaces sp = true
      ∧ "secret" ≠ "" ∧ noLineTerminator "secret" = true.
Proof.
  split; [reflexivity|].
  exact (bearerMatch_sound "  bEARER   secret" "secret" eq_refl).
Defined.

Lemma bearerMatch_complete_witness :
  allSpaces " " = true
  ∧ sameLettersCI "Bearer" "BEARER" = true
  ∧ ("  " ≠ "")
  ∧ allSpaces "  " = true
  ∧ startsWithNonSpace "abc def" = true
  ∧ noLineTerminator "abc def" = true
  ∧ bearerMatch (" " +:+ "BEARER" +:+ "  " +:+ "abc def") = Some "abc def".
Proof.
  assert ("  " ≠ "") as Hne by discriminate.
  split; [reflexivity|]. split; [reflexivity|]. split; [exact Hne|].
  split; [reflexivity|]. split; [reflexivity|]. split; [reflexivity|].
  exact (bearerMatch_complete " " "BEARER" "  " "abc def"
           eq_refl eq_refl Hne eq_refl eq_refl eq_refl).
Defined.

Lemma prefix_append (s t : string) : String.prefix s (s +:+ t) = true.
Proof.
  induction s as [|c s IH]; [by destruct t|].
  rewrite append_cons. simpl. rewrite IH. by destruct (ascii_dec c c).
Qed.

Lemma includes_unfold (needle hay : string) :
  includes needle hay =
  String.prefix needle hay ||
  match hay with
  | String _ rest => includes needle rest
  | EmptyString => false
  end.
Proof. by destruct hay. Qed.

Lemma includes_append (needle pre post : string) :
  includes needle (pre +:+ needle +:+ post) = true.
Proof.
  induction pre as [|c pre IH].
  - rewrite append_nil, includes_unfold. by rewrite prefix_append.
  - rewrite append_cons, includes_unfold. rewrite IH. apply orb_true_r.
Qed.

Lemma toLowerCase_append (s t : string) :
  toLowerCase (s +:+ t) = toLowerCase s +:+ toLowerCase t.
Proof.
  induction s as [|c s IH]; [done|].
  rewrite append_cons. simpl. by rewrite IH, append_cons.
Qed.

(** An error message is taken for a rate limit as soon as it holds "rate
    limit" or "too many requests" anywhere, in any case of the letters, or
    "429" anywhere. *)
Theorem rate_limit_is_recognised (pre mid post : string) :
  toLowerCase mid = "rate limit" ∨ toLowerCase mid = "too many requests"
  ∨ mid = "429" →
  isRateLimit (pre +:+ mid +:+ post) = true.
Proof.
  unfold isRateLimit. rewrite !toLowerCase_append.
  intros [H|[H|H]].
  - rewrite H. by rewrite includes_append.
  - rewrite H. rewrite (includes_append "too many requests"). apply orb_true_iff.
    left. apply orb_true_r.
  - rewrite H. rewrite (includes_append "429"). apply orb_true_r.
Qed.

Lemma rate_limit_is_recognised_witness :
  (toLowerCase "Too Many Requests" = "rate limit"
   ∨ toLowerCase "Too Many Requests" = "too many requests"
   ∨ "Too Many Requests" = "429")
  ∧ isRateLimit ("Request failed: " +:+ "Too Many Requests" +:+ " (try later)") = true.
Proof.
  assert (toLowerCase "Too Many Requests" = "rate limit"
          ∨ toLowerCase "Too Many Requests" = "too many requests"
          ∨ "Too Many Requests" = "429") as H by (right; left; reflexivity).
  split; [exact H|].
  exact (rate_limit_is_recognised "Request failed: " "Too Many Requests"
           " (try later)" H).
Defined.
